(** * HamedStack.StyleInjector: [caseConverter], [toCss] and [injectStyle]

    A shallow embedding of [src/index.ts].

    - JavaScript strings are modelled by [string]; the characters are read as
      code units below 128.  The case functions below leave every other
      character alone (the Unicode case tables are not modelled), so the
      general statements on [caseConverter] are about ASCII identifiers.
    - A JavaScript value is a [Value]: [undefined], [null], booleans, numbers,
      strings, arrays and plain objects.  An object is represented by the list
      that [Object.entries] returns for it (integer-like keys in ascending
      order, then the other keys in insertion order), which is the only way
      the code reads objects.  Objects are ordinary objects with the
      prototype [Object.prototype] and enumerable data properties.  Values are
      finite trees: symbols, functions, accessors and cyclic objects are not
      modelled.  Numbers are kept abstract ([JsNumber]): the code only
      renders them and tests their truthiness.
    - [ToString] can throw: no modelled value is callable, so an object with
      an own [toString] entry has no primitive value, and the conversion of
      an array that holds such an object throws.
    - The [while] loop of [toCss] is iterated with fuel; [toCss] supplies the
      weight of its argument, and [toCss_terminates] shows this is enough.
    - The document is behind the [Dom] interface; [injectStyle] threads a
      [World] (document and console) through its steps. *)

From Stdlib Require Import String Ascii List Bool Arith Lia ZArith DecimalString.
Import ListNotations.
Local Open Scope list_scope.
Local Open Scope string_scope.

(* ------------------------------------------------------------------ *)
(** * Strings *)

Module JsString.

Definition code (c : ascii) : nat := nat_of_ascii c.

Definition is_ascii7 (c : ascii) : bool := (code c <? 128)%nat.

(** The class [[A-Z]] of the regular expression in [caseConverter]. *)
Definition is_upper (c : ascii) : bool :=
  ((65 <=? code c) && (code c <=? 90))%nat.

Definition is_lower (c : ascii) : bool :=
  ((97 <=? code c) && (code c <=? 122))%nat.

Definition is_letter (c : ascii) : bool := is_upper c || is_lower c.

Definition char_toUpperCase (c : ascii) : ascii :=
  if is_lower c then ascii_of_nat (code c - 32) else c.

Definition char_toLowerCase (c : ascii) : ascii :=
  if is_upper c then ascii_of_nat (code c + 32) else c.

Fixpoint map_chars (f : ascii -> ascii) (s : string) : string :=
  match s with
  | EmptyString => EmptyString
  | String c s' => String (f c) (map_chars f s')
  end.

(** [String.prototype.toUpperCase] and [String.prototype.toLowerCase]. *)
Definition toUpperCase : string -> string := map_chars char_toUpperCase.
Definition toLowerCase : string -> string := map_chars char_toLowerCase.

Fixpoint ascii_only (s : string) : bool :=
  match s with
  | EmptyString => true
  | String c s' => is_ascii7 c && ascii_only s'
  end.

(** [split_rest s] reads the characters that follow the first character of a
    segment: the rest of that segment, and the segments after it.  An
    upper-case letter closes the running segment and opens the next one. *)
Fixpoint split_rest (s : string) : string * list string :=
  match s with
  | EmptyString => (EmptyString, [])
  | String c s' =>
      let '(seg, segs) := split_rest s' in
      if is_upper c then (EmptyString, String c seg :: segs)
      else (String c seg, segs)
  end.

(** [str.split(/(?=[A-Z])/)]: the look-ahead matches the empty string in
    front of each upper-case letter; [split] never cuts at the position where
    the running segment starts, so no segment is empty and position 0 is not
    a cut. *)
Definition split_before_upper (s : string) : list string :=
  match s with
  | EmptyString => [EmptyString]
  | String c s' => let '(seg, segs) := split_rest s' in String c seg :: segs
  end.

(** [segments.join(sep)]. *)
Definition join (sep : string) (l : list string) : string := String.concat sep l.

End JsString.

Import JsString.

(* ------------------------------------------------------------------ *)
(** * [caseConverter] (index.ts, lines 14-22) *)

Definition caseConverter (str : string) : string :=
  match str with
  | EmptyString => str
  | String c0 _ =>
      let isUppercase := String.eqb (String c0 "") (toUpperCase (String c0 "")) in
      let result := toLowerCase (join "-" (split_before_upper str)) in
      if isUppercase then "-" ++ result else result
  end.


(** The characters after the first one in hyphenated form: a hyphen in front
    of each upper-case letter, and every letter in lower case. *)
Fixpoint kebab_rest (s : string) : string :=
  match s with
  | EmptyString => EmptyString
  | String c s' =>
      if is_upper c
      then String "-" (String (char_toLowerCase c) (kebab_rest s'))
      else String c (kebab_rest s')
  end.

(** Whether a string holds a letter of [[A-Z]]. *)
Fixpoint has_upper (s : string) : bool :=
  match s with
  | EmptyString => false
  | String c s' => is_upper c || has_upper s'
  end.

(* ------------------------------------------------------------------ *)
(** * JavaScript values *)

(** What the code asks of a number: its rendering in a template literal
    ([Number::toString]) and whether it is falsy ([0], [-0], [NaN]). *)
Class JsNumber (Number : Type) : Type := {
  Number_toString : Number -> string;
  Number_isFalsy : Number -> bool
}.

(** Integer-valued numbers in the safe range render in decimal. *)
Definition Z_toString (z : Z) : string :=
  NilEmpty.string_of_int (Z.to_int z).

#[global] Instance Z_JsNumber : JsNumber Z := {|
  Number_toString := Z_toString;
  Number_isFalsy := Z.eqb 0
|}.

Inductive JsError : Type :=
| TypeError (message : string)   (* [throw new TypeError(message)] *)
| Error (message : string)       (* [throw new Error(message)] *)
| NativeTypeError.               (* a TypeError thrown by the runtime itself *)

(** How a call ends.  [OutOfFuel] belongs to the model only. *)
Inductive Completion (A : Type) : Type :=
| Return (a : A)
| Throw (e : JsError)
| OutOfFuel.
Arguments Return {A} a.
Arguments Throw {A} e.
Arguments OutOfFuel {A}.

Definition bind {A B} (c : Completion A) (k : A -> Completion B) : Completion B :=
  match c with
  | Return a => k a
  | Throw e => Throw e
  | OutOfFuel => OutOfFuel
  end.

Notation "x <- c ;; k" := (bind c (fun x => k))
  (at level 61, c at next level, right associativity).

(** JavaScript arrays used as stacks and buffers: [push] adds at the end,
    [pop] removes from the end. *)
Definition Array_push {A} (arr : list A) (x : A) : list A := (arr ++ [x])%list.

Definition Array_pop {A} (arr : list A) : option (A * list A) :=
  match rev arr with
  | [] => None
  | x :: r => Some (x, rev r)
  end.

Section Values.
Context {Number : Type}.

#[warnings="-register-all"]
Inductive Value : Type :=
| VUndefined
| VNull
| VBoolean (b : bool)
| VNumber (n : Number)
| VString (s : string)
| VArray (elements : list Value)
| VObject (entries : list (string * Value)).

Context `{JsNumber Number}.

Definition typeof (v : Value) : string :=
  match v with
  | VUndefined => "undefined"
  | VNull => "object"
  | VBoolean _ => "boolean"
  | VNumber _ => "number"
  | VString _ => "string"
  | VArray _ => "object"
  | VObject _ => "object"
  end.

Definition Array_isArray (v : Value) : bool :=
  match v with VArray _ => true | _ => false end.

(** [ToBoolean]: what [!v] and [v ? _ : _] test. *)
Definition truthy (v : Value) : bool :=
  match v with
  | VUndefined | VNull => false
  | VBoolean b => b
  | VNumber n => negb (Number_isFalsy n)
  | VString s => negb (String.eqb s "")
  | VArray _ | VObject _ => true
  end.

(** Whether the object has an own property named [toString].  Its value is
    never callable here, so it hides [Object.prototype.toString]. *)
Definition has_own_toString (es : list (string * Value)) : bool :=
  existsb (fun e => String.eqb (fst e) "toString") es.

(** [ToString], as a template literal applies it.  An array renders as
    [join(",")], where [undefined] and [null] elements render as the empty
    string and the other elements are converted in turn.  An object renders
    as ["[object Object]"] through [Object.prototype.toString]; with an own
    [toString] entry neither [toString] nor [valueOf] gives a primitive, and
    the conversion throws a TypeError. *)
Fixpoint ToString (v : Value) : Completion string :=
  match v with
  | VUndefined => Return "undefined"
  | VNull => Return "null"
  | VBoolean b => Return (if b then "true" else "false")
  | VNumber n => Return (Number_toString n)
  | VString s => Return s
  | VArray l =>
      parts <-
        (fix elems (l : list Value) : Completion (list string) :=
           match l with
           | [] => Return []
           | x :: l' =>
               part <- match x with
                       | VUndefined | VNull => Return ""
                       | _ => ToString x
                       end ;;
               rest <- elems l' ;;
               Return (part :: rest)
           end) l ;;
      Return (join "," parts)
  | VObject es =>
      if has_own_toString es then Throw NativeTypeError
      else Return "[object Object]"
  end.

(** The elements of an array as [join] converts them. *)
Fixpoint array_parts (l : list Value) : Completion (list string) :=
  match l with
  | [] => Return []
  | x :: l' =>
      part <- match x with
              | VUndefined | VNull => Return ""
              | _ => ToString x
              end ;;
      rest <- array_parts l' ;;
      Return (part :: rest)
  end.

(** [undefined], [null], booleans, numbers and strings. *)
Definition is_primitive (v : Value) : bool :=
  match v with
  | VArray _ | VObject _ => false
  | _ => true
  end.

(** The conversion returns. *)
Definition converts (v : Value) : bool :=
  match ToString v with
  | Return _ => true
  | _ => false
  end.

(** The text of a conversion that returns. *)
Definition text_of (c : Completion string) : string :=
  match c with
  | Return s => s
  | _ => ""
  end.

Definition index_key (i : nat) : string := NilEmpty.string_of_uint (Nat.to_uint i).

Fixpoint indexed {A} (i : nat) (l : list A) : list (string * A) :=
  match l with
  | [] => []
  | x :: l' => (index_key i, x) :: indexed (S i) l'
  end.

Fixpoint chars (s : string) : list Value :=
  match s with
  | EmptyString => []
  | String c s' => VString (String c "") :: chars s'
  end.

(** [Object.entries(v)]: it throws on [undefined] and [null]; an object
    gives its entries, an array and a string their indexed elements, and the
    other primitives none. *)
Definition Object_entries (v : Value) : Completion (list (string * Value)) :=
  match v with
  | VUndefined | VNull => Throw NativeTypeError
  | VBoolean _ | VNumber _ => Return []
  | VString s => Return (indexed 0 (chars s))
  | VArray l => Return (indexed 0 l)
  | VObject es => Return es
  end.

(* ------------------------------------------------------------------ *)
(** * [toCss] (index.ts, lines 31-71) *)

Record StackElement : Type := {
  parentSelector : string;
  cssObj : Value
}.

(** The body of the [for] loop (lines 51-63), for one entry.  The template
    literal of line 61 converts the value, which can throw. *)
Definition entry_step (parentSelector : string)
    (st : list StackElement * list string) (entry : string * Value)
    : Completion (list StackElement * list string) :=
  let '(stack, nestedCss) := st in
  let '(id, value) := entry in
  let key := caseConverter id in
  if String.eqb (typeof value) "object" && negb (Array_isArray value) then
    let newSelector :=
      if negb (String.eqb parentSelector "")
      then parentSelector ++ " ." ++ caseConverter id
      else "." ++ caseConverter id in
    Return
      (Array_push stack {| parentSelector := newSelector; cssObj := value |},
       nestedCss)
  else
    text <- ToString value ;;
    Return (stack, Array_push nestedCss (key ++ ":" ++ text ++ ";")).

(** The [for] loop over the entries (lines 51-63); a throw ends it. *)
Fixpoint for_entries (parentSelector : string)
    (entries : list (string * Value))
    (st : list StackElement * list string)
    : Completion (list StackElement * list string) :=
  match entries with
  | [] => Return st
  | entry :: rest =>
      st' <- entry_step parentSelector st entry ;;
      for_entries parentSelector rest st'
  end.

(** Lines 65-67. *)
Definition emit (parentSelector : string) (nestedCss lines : list string)
    : list string :=
  if (0 <? List.length nestedCss)%nat
  then Array_push lines (parentSelector ++ "{" ++ join "" nestedCss ++ "}")
  else lines.

(** The [while] loop (lines 47-68): one unit of fuel per popped element. *)
Fixpoint while_loop (fuel : nat) (stack : list StackElement)
    (lines : list string) : Completion (list string) :=
  match Array_pop stack with
  | None => Return lines
  | Some (top, stack1) =>
      match fuel with
      | O => OutOfFuel
      | S fuel' =>
          entries <- Object_entries (cssObj top) ;;
          st <- for_entries (parentSelector top) entries (stack1, []) ;;
          while_loop fuel' (fst st) (emit (parentSelector top) (snd st) lines)
      end
  end.

(** The number of elements the loop can pop for a value: the value itself
    and, for an object, those of its entries. *)
Fixpoint weight (v : Value) : nat :=
  match v with
  | VObject es =>
      S ((fix sum (es : list (string * Value)) : nat :=
            match es with
            | [] => 0
            | (_, x) :: es' => weight x + sum es'
            end) es)
  | _ => 1
  end.

(** The rule list collected by the loop, before it is reversed. *)
Definition collect (obj : Value) : Completion (list string) :=
  while_loop (weight obj) [{| parentSelector := ""; cssObj := obj |}] [].

Definition toCss (obj : Value) : Completion string :=
  if negb (truthy obj) || negb (String.eqb (typeof obj) "object")
     || Array_isArray obj
  then Throw (TypeError
                ("Expected an argument of type object, but got " ++ typeof obj))
  else
    lines <- collect obj ;;
    Return (join "" (rev lines)).

(* ------------------------------------------------------------------ *)
(** * Recursive flattenings, for comparison with the loop *)

(** The test of line 54: the entry is a nested node. *)
Definition is_nested (v : Value) : bool :=
  String.eqb (typeof v) "object" && negb (Array_isArray v).

(** Selector composition (spec, section 3). *)
Definition child_selector (parent id : string) : string :=
  match parent with
  | EmptyString => "." ++ caseConverter id
  | _ => parent ++ " ." ++ caseConverter id
  end.

(** A leaf entry as a declaration, ["<hyphenated-key>:<value>;"]. *)
Definition declaration (id : string) (v : Value) : string :=
  caseConverter id ++ ":" ++ text_of (ToString v) ++ ";".

(** The direct declarations of a node, in entry order. *)
Fixpoint declarations (es : list (string * Value)) : list string :=
  match es with
  | [] => []
  | (id, v) :: es' =>
      if is_nested v then declarations es'
      else declaration id v :: declarations es'
  end.

(** The nested nodes of a node with their selectors, in entry order. *)
Fixpoint children (parent : string) (es : list (string * Value))
    : list StackElement :=
  match es with
  | [] => []
  | (id, v) :: es' =>
      if is_nested v
      then {| parentSelector := child_selector parent id; cssObj := v |}
           :: children parent es'
      else children parent es'
  end.

(** The rule block of a node: none when it has no direct declaration. *)
Definition rule (selector : string) (decls : list string) : list string :=
  match decls with
  | [] => []
  | _ :: _ => [selector ++ "{" ++ join "" decls ++ "}"]
  end.

(** Pre-order flattening, as the spec words it (section 4.3): the rule of a
    node, then the flattenings of its nested nodes in entry order. *)
Fixpoint flatten_preorder (selector : string) (v : Value) : list string :=
  match v with
  | VObject es =>
      (rule selector (declarations es)
       ++ (fix nested (es : list (string * Value)) : list string :=
             match es with
             | [] => []
             | (id, x) :: es' =>
                 (if is_nested x
                  then flatten_preorder (child_selector selector id) x
                  else [])
                 ++ nested es'
             end) es)%list
  | _ => []
  end.

(** Post-order flattening: the flattenings of the nested nodes in entry
    order, then the rule of the node itself. *)
Fixpoint flatten_postorder (selector : string) (v : Value) : list string :=
  match v with
  | VObject es =>
      ((fix nested (es : list (string * Value)) : list string :=
          match es with
          | [] => []
          | (id, x) :: es' =>
              (if is_nested x
               then flatten_postorder (child_selector selector id) x
               else [])
              ++ nested es'
          end) es
       ++ rule selector (declarations es))%list
  | _ => []
  end.

(** A value of the declared type [CssObject]: every entry is a string, a
    number or again a [CssObject]. *)
Fixpoint is_CssObject (v : Value) : bool :=
  match v with
  | VObject es =>
      (fix all (es : list (string * Value)) : bool :=
         match es with
         | [] => true
         | (_, x) :: es' =>
             match x with
             | VString _ | VNumber _ => true
             | VObject _ => is_CssObject x
             | _ => false
             end && all es'
         end) es
  | _ => false
  end.


(** Nothing in the object makes the traversal throw: no entry, at any depth
    of nested objects, holds [null], and every leaf entry converts. *)
Fixpoint throw_free (v : Value) : bool :=
  match v with
  | VObject es =>
      (fix all (es : list (string * Value)) : bool :=
         match es with
         | [] => true
         | (_, x) :: es' =>
             match x with
             | VNull => false
             | VObject _ => throw_free x
             | _ => converts x
             end && all es'
         end) es
  | _ => true
  end.

(** Every leaf entry of the node converts. *)
Definition leaves_convert (es : list (string * Value)) : bool :=
  forallb (fun e => is_nested (snd e) || converts (snd e)) es.

(** The nodes of an object with their selectors and direct declarations,
    nested nodes first; a node without declarations is listed with [[]]. *)
Fixpoint flat_rules (selector : string) (v : Value)
    : list (string * list string) :=
  match v with
  | VObject es =>
      ((fix nested (es : list (string * Value)) : list (string * list string) :=
          match es with
          | [] => []
          | (id, x) :: es' =>
              (if is_nested x
               then flat_rules (child_selector selector id) x
               else [])
              ++ nested es'
          end) es
       ++ [(selector, declarations es)])%list
  | _ => []
  end.

(** A plain object: what passes the test of line 32. *)
Definition is_object (v : Value) : bool :=
  match v with VObject _ => true | _ => false end.

(** Measures and abbreviations for the proofs on the loop. *)
Definition entries_weight (es : list (string * Value)) : nat :=
  list_sum (map (fun e => weight (snd e)) es).

Definition stack_weight (stack : list StackElement) : nat :=
  list_sum (map (fun e => weight (cssObj e)) stack).

Definition post_element (e : StackElement) : list string :=
  flatten_postorder (parentSelector e) (cssObj e).

Definition sound_element (e : StackElement) : bool :=
  is_object (cssObj e) && throw_free (cssObj e).

(** A stack element on which the loop throws. *)
Definition faulty (v : Value) : bool :=
  match v with
  | VNull => true
  | _ => negb (throw_free v)
  end.

Definition nested_element (e : StackElement) : bool := is_nested (cssObj e).

(** No node has both direct declarations and nested nodes. *)
Fixpoint layered (v : Value) : bool :=
  match v with
  | VObject es =>
      match declarations es with
      | [] => true
      | _ :: _ => forallb (fun e => negb (is_nested (snd e))) es
      end
      && (fix all (es : list (string * Value)) : bool :=
            match es with
            | [] => true
            | (_, x) :: es' => layered x && all es'
            end) es
  | _ => true
  end.

(** [nest [k1; ...; kn] v] is [{k1: {... {kn: v}}}]. *)
Definition nest (ks : list string) (v : Value) : Value :=
  fold_right (fun k inner => VObject [(k, inner)]) v ks.

(** The descendant selector of a chain of keys, [".k1 .k2 ... .kn"]. *)
Definition selector_chain (ks : list string) : string :=
  join " " (map (fun k => "." ++ caseConverter k) ks).

End Values.

Arguments Value : clear implicits.

(* ------------------------------------------------------------------ *)
(** * The document *)

(** What [injectStyle] asks of the DOM.  [Dom] is the state of the whole node
    store (the document tree and the elements not attached to it), and
    [Element] a reference to an element.  Reads leave the store alone. *)
Class DomOps (Dom Element : Type) : Type := {
  document_getElementById : string -> Dom -> option Element;
  document_createElement : string -> Dom -> Element * Dom;
  document_head : Dom -> Element;
  get_tagName : Element -> Dom -> string;
  set_type : Element -> string -> Dom -> Dom;
  set_id : Element -> string -> Dom -> Dom;
  set_textContent : Element -> string -> Dom -> Dom;
  appendChild : Element -> Element -> Dom -> Dom
}.

(** The document and the console, the two things a call can change. *)
Record World (Dom : Type) : Type := {
  document : Dom;
  console : list string
}.
Arguments document {Dom} w.
Arguments console {Dom} w.

(* ------------------------------------------------------------------ *)
(** * [injectStyle] (index.ts, lines 82-120) *)

Section InjectStyle.
Context {Number : Type} `{JsNumber Number}.
Context {Dom Element : Type} `{DomOps Dom Element}.

Definition console_warn (message : string) (w : World Dom) : World Dom :=
  {| document := document w; console := Array_push (console w) message |}.

Definition with_document (d : Dom) (w : World Dom) : World Dom :=
  {| document := d; console := console w |}.

(** [textOrObject.length], read when [textOrObject] is a string. *)
Definition string_length (v : Value Number) : nat :=
  match v with
  | VString s => String.length s
  | _ => 0
  end.

(** [typeof textOrObject === 'object' ? toCss(textOrObject) : textOrObject],
    as the [textContent] setter receives it. *)
Definition style_text (textOrObject : Value Number) : Completion string :=
  if String.eqb (typeof textOrObject) "object"
  then toCss textOrObject
  else ToString textOrObject.

(** Lines 114-119. *)
Definition create_style (textOrObject : Value Number) (id : option string)
    (hostElement : Element) (w : World Dom) : Completion unit * World Dom :=
  let '(style, d1) := document_createElement "style" (document w) in
  let d2 := set_type style "text/css" d1 in
  match style_text textOrObject with
  | Return css =>
      let d3 := set_textContent style css d2 in
      let d4 :=
        match id with
        | Some i => if negb (String.eqb i "") then set_id style i d3 else d3
        | None => d3
        end in
      (Return tt, with_document (appendChild hostElement style d4) w)
  | Throw e => (Throw e, with_document d2 w)
  | OutOfFuel => (OutOfFuel, with_document d2 w)
  end.

(** Lines 97-111, for an element [oldStyle] found under the id. *)
Definition replace_style (textOrObject : Value Number) (overridable : bool)
    (oldStyle : Element) (w : World Dom) : Completion unit * World Dom :=
  let isStyleTag :=
    String.eqb (toLowerCase (get_tagName oldStyle (document w))) "style" in
  if negb isStyleTag then
    (Throw (Error "The provided id does not indicate a style tag."), w)
  else if isStyleTag && negb overridable then
    (Return tt,
     console_warn
       "Style with the same id exists and overridable is set to false. Skipping."
       w)
  else
    match style_text textOrObject with
    | Return css =>
        (Return tt, with_document (set_textContent oldStyle css (document w)) w)
    | Throw e => (Throw e, w)
    | OutOfFuel => (OutOfFuel, w)
    end.

(** [id], [overridable] and [hostElement] are [None] when the caller leaves
    them out; the defaults are [true] and [document.head]. *)
Definition injectStyle (textOrObject : Value Number) (id : option string)
    (overridable : option bool) (hostElement : option Element)
    (w : World Dom) : Completion unit * World Dom :=
  let overridable := match overridable with Some b => b | None => true end in
  let hostElement :=
    match hostElement with
    | Some h => h
    | None => document_head (document w)
    end in
  if negb (truthy textOrObject) || Array_isArray textOrObject then
    (Throw (Error "Invalid input: textOrObject cannot be null or an array."), w)
  else if String.eqb (typeof textOrObject) "string"
          && (string_length textOrObject =? 0)%nat then
    (Throw (Error "Invalid input: CSS string cannot be empty."), w)
  else
    match id with
    | Some i =>
        if negb (String.eqb i "") then
          match document_getElementById i (document w) with
          | Some oldStyle => replace_style textOrObject overridable oldStyle w
          | None => create_style textOrObject id hostElement w
          end
        else create_style textOrObject id hostElement w
    | None => create_style textOrObject id hostElement w
    end.

End InjectStyle.

(* ------------------------------------------------------------------ *)
(** * A small document, to run [injectStyle] on

    Elements are numbered in creation order, which stands for tree order;
    element 0 is [document.head]. *)

Module ListDom.

Record Node : Type := {
  node_tag : string;
  node_id : string;
  node_type : string;
  node_text : string;
  node_parent : option nat
}.

Definition t : Type := list Node.

Fixpoint update (i : nat) (f : Node -> Node) (d : t) : t :=
  match d, i with
  | [], _ => []
  | n :: d', O => f n :: d'
  | n :: d', S i' => n :: update i' f d'
  end.

(** Whether the chain of parents of element [i] ends at element 0. *)
Fixpoint connected (fuel : nat) (d : t) (i : nat) : bool :=
  match i, fuel with
  | O, _ => true
  | _, O => false
  | _, S fuel' =>
      match nth_error d i with
      | Some n =>
          match node_parent n with
          | Some p => connected fuel' d p
          | None => false
          end
      | None => false
      end
  end.

Fixpoint find_id (id : string) (d : t) (all : t) (i : nat) : option nat :=
  match d with
  | [] => None
  | n :: d' =>
      if String.eqb (node_id n) id && connected (List.length all) all i
      then Some i
      else find_id id d' all (S i)
  end.

Definition getElementById (id : string) (d : t) : option nat :=
  if String.eqb id "" then None else find_id id d d 0.

Definition createElement (tag : string) (d : t) : nat * t :=
  (List.length d,
   (d ++ [{| node_tag := toUpperCase tag; node_id := ""; node_type := "";
             node_text := ""; node_parent := None |}])%list).

Definition tagName (e : nat) (d : t) : string :=
  match nth_error d e with
  | Some n => node_tag n
  | None => ""
  end.

Definition with_type (v : string) (n : Node) : Node :=
  {| node_tag := node_tag n; node_id := node_id n; node_type := v;
     node_text := node_text n; node_parent := node_parent n |}.

Definition with_id (v : string) (n : Node) : Node :=
  {| node_tag := node_tag n; node_id := v; node_type := node_type n;
     node_text := node_text n; node_parent := node_parent n |}.

Definition with_text (v : string) (n : Node) : Node :=
  {| node_tag := node_tag n; node_id := node_id n; node_type := node_type n;
     node_text := v; node_parent := node_parent n |}.

Definition with_parent (p : option nat) (n : Node) : Node :=
  {| node_tag := node_tag n; node_id := node_id n; node_type := node_type n;
     node_text := node_text n; node_parent := p |}.

(** Setting [textContent] drops the children of the element. *)
Definition orphan (e : nat) (n : Node) : Node :=
  match node_parent n with
  | Some p => if (p =? e)%nat then with_parent None n else n
  | None => n
  end.

Definition setTextContent (e : nat) (v : string) (d : t) : t :=
  update e (with_text v) (map (orphan e) d).

#[global] Instance ops : DomOps t nat := {|
  document_getElementById := getElementById;
  document_createElement := createElement;
  document_head := fun _ => 0;
  get_tagName := tagName;
  set_type := fun e v => update e (with_type v);
  set_id := fun e v => update e (with_id v);
  set_textContent := setTextContent;
  appendChild := fun host e => update e (with_parent (Some host))
|}.

(** A document with its head and one [<style id="theme">] in it. *)
Definition sample : t :=
  [ {| node_tag := "HEAD"; node_id := ""; node_type := ""; node_text := "";
       node_parent := None |};
    {| node_tag := "STYLE"; node_id := "theme"; node_type := "text/css";
       node_text := ".a{color:red;}"; node_parent := Some 0 |};
    {| node_tag := "DIV"; node_id := "box"; node_type := "";
       node_text := ""; node_parent := Some 0 |} ].

End ListDom.

(* ------------------------------------------------------------------ *)
(** * Flat rules as text, and sample inputs *)

(** A flat rule as text, [selector{declarations}]. *)
Definition block (r : string * list string) : string :=
  fst r ++ "{" ++ join "" (snd r) ++ "}".

Definition has_declarations (r : string * list string) : bool :=
  match snd r with
  | [] => false
  | _ :: _ => true
  end.

(** What the spec calls invalid content of [injectStyle]: null or absent, an
    array, or the empty string. *)
Definition invalid_content {Number} (v : Value Number) : bool :=
  match v with
  | VUndefined | VNull | VArray _ => true
  | VString s => String.eqb s ""
  | _ => false
  end.

Module Samples.

(** [{card:{title:{color:"red"}}}] *)
Definition card_title {Number} : Value Number :=
  VObject [("card", VObject [("title", VObject [("color", VString "red")])])].

(** [{a:{color:"red"}, b:{color:"blue"}}] *)
Definition two_siblings {Number} : Value Number :=
  VObject [("a", VObject [("color", VString "red")]);
           ("b", VObject [("color", VString "blue")])].

(** [{color:"red"}] *)
Definition root_leaf {Number} : Value Number :=
  VObject [("color", VString "red")].

(** [{color:"red", a:{color:"blue"}}] *)
Definition parent_and_child : Value Z :=
  VObject [("color", VString "red"); ("a", VObject [("color", VString "blue")])].

(** [{a:{width:10, b:{height:2}}, c:{margin:0}}] *)
Definition three_levels : Value Z :=
  VObject [("a", VObject [("width", VNumber 10%Z);
                          ("b", VObject [("height", VNumber 2%Z)])]);
           ("c", VObject [("margin", VNumber 0%Z)])].

(** [{a:null}] *)
Definition null_entry : Value Z := VObject [("a", VNull)].

(** [{a:true, b:undefined, c:[1, null, "x"]}] *)
Definition odd_leaves : Value Z :=
  VObject [("a", VBoolean true); ("b", VUndefined);
           ("c", VArray [VNumber 1%Z; VNull; VString "x"])].

(** [{a:[{toString:1}]}] *)
Definition hostile_leaf : Value Z :=
  VObject [("a", VArray [VObject [("toString", VNumber 1%Z)]])].

(** [{"0pad":"1", ":hover":{color:"red"}}] *)
Definition caseless_keys : Value Z :=
  VObject [("0pad", VString "1"); (":hover", VObject [("color", VString "red")])].

End Samples.

(* ------------------------------------------------------------------ *)
(** * Arrays and strings *)

Lemma Array_pop_push {A} (arr : list A) (x : A) :
  Array_pop (Array_push arr x) = Some (x, arr).
Proof.
  unfold Array_pop, Array_push.
  rewrite rev_app_distr. simpl. now rewrite rev_involutive.
Qed.

Lemma Array_pop_snoc {A} (arr : list A) (x : A) :
  Array_pop (arr ++ [x]) = Some (x, arr).
Proof. exact (Array_pop_push arr x). Qed.

(* ------------------------------------------------------------------ *)
(** * The loop against the recursive flattenings *)

Section Flattening.
Context {Number : Type} `{JsNumber Number}.

Implicit Types (v : Value Number) (es : list (string * Value Number)).
Implicit Types (stack : list (StackElement (Number := Number))).

(** Induction on values that goes through the entries of an object. *)
Lemma Value_entries_ind (P : Value Number -> Prop) :
  P VUndefined -> P VNull -> (forall b, P (VBoolean b)) ->
  (forall n, P (VNumber n)) -> (forall s, P (VString s)) ->
  (forall l, P (VArray l)) ->
  (forall es, Forall (fun e => P (snd e)) es -> P (VObject es)) ->
  forall v, P v.
Proof.
  intros Hu Hn Hb Hnum Hs Ha Ho.
  fix IH 1.
  intros [ | | b | n | s | l | es];
    [exact Hu | exact Hn | apply Hb | apply Hnum | apply Hs | apply Ha | ].
  apply Ho. induction es as [|[k x] es IHes]; constructor.
  - apply IH.
  - exact IHes.
Qed.

(** Induction on values that goes through the elements of an array. *)
Lemma Value_elements_ind (P : Value Number -> Prop) :
  P VUndefined -> P VNull -> (forall b, P (VBoolean b)) ->
  (forall n, P (VNumber n)) -> (forall s, P (VString s)) ->
  (forall l, Forall P l -> P (VArray l)) ->
  (forall es, P (VObject es)) ->
  forall v, P v.
Proof.
  intros Hu Hn Hb Hnum Hs Ha Ho.
  fix IH 1.
  intros [ | | b | n | s | l | es];
    [exact Hu | exact Hn | apply Hb | apply Hnum | apply Hs | | apply Ho].
  apply Ha. induction l as [|x l IHl]; constructor.
  - apply IH.
  - exact IHl.
Qed.

Lemma ToString_array l :
  ToString (VArray l) = (parts <- array_parts l ;; Return (join "," parts)).
Proof. reflexivity. Qed.

(** A conversion returns its text or throws the runtime's TypeError. *)
Lemma ToString_outcome v :
  ToString v = Return (text_of (ToString v))
  \/ ToString v = Throw NativeTypeError.
Proof.
  induction v as [ | | b | n | s | l IH | es] using Value_elements_ind;
    try (now left).
  - rewrite ToString_array.
    assert (Hparts : (exists parts, array_parts l = Return parts)
                     \/ array_parts l = Throw NativeTypeError).
    { induction l as [|x l IHl]; [left; now exists []|].
      inversion_clear IH as [|? ? Hx Hl]. cbn [array_parts].
      assert (Hpart : (exists part,
                         match x with
                         | VUndefined | VNull => Return ""
                         | _ => ToString x
                         end = Return part)
                      \/ match x with
                         | VUndefined | VNull => Return ""
                         | _ => ToString x
                         end = Throw NativeTypeError).
      { destruct x; try (left; eexists; reflexivity);
          (destruct Hx as [-> | ->]; [left; eexists; reflexivity | now right]). }
      destruct Hpart as [[part ->] | ->]; [|now right]. cbn [bind].
      destruct (IHl Hl) as [[parts ->] | ->]; [left; eexists | right];
        reflexivity. }
    destruct Hparts as [[parts ->] | ->]; [left | right]; reflexivity.
  - cbn [ToString]. destruct (has_own_toString es); [right | left]; reflexivity.
Qed.

Lemma converts_true v :
  converts v = true -> ToString v = Return (text_of (ToString v)).
Proof. unfold converts. destruct (ToString v); try discriminate. reflexivity. Qed.

Lemma converts_false v :
  converts v = false -> ToString v = Throw NativeTypeError.
Proof.
  unfold converts. destruct (ToString_outcome v) as [-> | ->];
    [discriminate | reflexivity].
Qed.


Lemma entry_step_eq parent stack nestedCss id v :
  entry_step parent (stack, nestedCss) (id, v)
  = if is_nested v
    then Return (Array_push stack {| parentSelector := child_selector parent id;
                                     cssObj := v |}, nestedCss)
    else (text <- ToString v ;;
          Return (stack,
                  Array_push nestedCss (caseConverter id ++ ":" ++ text ++ ";"))).
Proof. destruct parent; reflexivity. Qed.

(** The [for] loop pushes the nested nodes and collects the declarations,
    unless the conversion of a leaf throws. *)
Lemma for_entries_eq parent es : forall stack nestedCss,
  for_entries parent es (stack, nestedCss)
  = if leaves_convert es
    then Return ((stack ++ children parent es)%list,
                 (nestedCss ++ declarations es)%list)
    else Throw NativeTypeError.
Proof.
  induction es as [|[id x] es IH]; intros stack nestedCss;
    cbn [for_entries children declarations leaves_convert forallb snd].
  - now rewrite !app_nil_r.
  - rewrite entry_step_eq. fold (leaves_convert es).
    destruct (is_nested x); cbn [orb bind].
    + unfold Array_push. rewrite IH. destruct (leaves_convert es); [|reflexivity].
      now rewrite <- app_assoc.
    + destruct (converts x) eqn:Hx.
      * rewrite (converts_true x Hx). cbn [bind andb]. unfold Array_push.
        rewrite IH. destruct (leaves_convert es); [|reflexivity].
        unfold declaration. now rewrite <- app_assoc.
      * now rewrite (converts_false x Hx).
Qed.

Lemma emit_rule selector nestedCss lines :
  emit selector nestedCss lines = (lines ++ rule selector nestedCss)%list.
Proof.
  destruct nestedCss; simpl; [now rewrite app_nil_r | reflexivity].
Qed.

Lemma weight_object es : weight (VObject es) = S (entries_weight es).
Proof.
  unfold entries_weight. simpl. f_equal.
  induction es as [|[k x] es IH]; simpl; [reflexivity | now rewrite IH].
Qed.

Lemma weight_pos v : 1 <= weight v.
Proof. destruct v; simpl; lia. Qed.

Lemma stack_weight_app stack1 stack2 :
  stack_weight (stack1 ++ stack2) = stack_weight stack1 + stack_weight stack2.
Proof. unfold stack_weight. now rewrite map_app, list_sum_app. Qed.

Lemma children_weight parent es :
  stack_weight (children parent es) <= entries_weight es.
Proof.
  unfold stack_weight, entries_weight.
  induction es as [|[k x] es IH]; simpl; [lia|].
  destruct (is_nested x); simpl; lia.
Qed.

Lemma flatten_postorder_object selector es :
  flatten_postorder selector (VObject es)
  = (flat_map post_element (children selector es)
     ++ rule selector (declarations es))%list.
Proof.
  simpl. f_equal.
  induction es as [|[k x] es IH]; simpl; [reflexivity|].
  rewrite IH. destruct (is_nested x); reflexivity.
Qed.

Lemma is_nested_cases v :
  is_nested v = true -> v = VNull \/ exists es, v = VObject es.
Proof. destruct v; simpl; try discriminate; eauto. Qed.


Lemma throw_free_object es :
  throw_free (VObject es)
  = forallb (fun e => match snd e with
                      | VNull => false
                      | VObject es' => throw_free (VObject es')
                      | x => converts x
                      end) es.
Proof.
  simpl. induction es as [|[k x] es IH]; simpl; [reflexivity|].
  rewrite IH. destruct x; reflexivity.
Qed.

Lemma throw_free_leaves es :
  throw_free (VObject es) = true -> leaves_convert es = true.
Proof.
  rewrite throw_free_object. unfold leaves_convert.
  induction es as [|[k x] es IH]; cbn [forallb snd]; [reflexivity|].
  intros Hes. apply andb_true_iff in Hes as [Hx Hes]. rewrite (IH Hes), andb_true_r.
  destruct x; try discriminate Hx; try exact Hx; reflexivity.
Qed.

Lemma children_sound parent es :
  throw_free (VObject es) = true ->
  Forall (fun e => sound_element e = true) (children parent es).
Proof.
  rewrite throw_free_object.
  induction es as [|[k x] es IH]; cbn [forallb snd children]; intros Htf;
    [constructor|].
  apply andb_true_iff in Htf as [Hx Hes].
  destruct (is_nested x) eqn:Hn; [|auto].
  constructor; [|auto].
  destruct (is_nested_cases x Hn) as [-> | [es' ->]]; [discriminate|].
  exact Hx.
Qed.

Lemma children_nested parent es :
  Forall (fun e => nested_element e = true) (children parent es).
Proof.
  induction es as [|[k x] es IH]; simpl; [constructor|].
  destruct (is_nested x) eqn:Hn; [constructor|]; auto.
Qed.

(** The loop leaves, after the lines it was given, the reversed post-order
    flattening of the elements of its stack. *)
Lemma while_loop_postorder fuel : forall stack lines,
  Forall (fun e => sound_element e = true) stack ->
  stack_weight stack <= fuel ->
  while_loop fuel stack lines
  = Return (lines ++ rev (flat_map post_element stack))%list.
Proof.
  induction fuel as [|fuel IH]; intros stack lines Hs Hw;
    destruct stack as [|top stack1 _] using rev_ind.
  - simpl. now rewrite app_nil_r.
  - rewrite stack_weight_app in Hw. unfold stack_weight at 2 in Hw.
    simpl in Hw. pose proof (weight_pos (cssObj top)). lia.
  - simpl. now rewrite app_nil_r.
  - apply Forall_app in Hs as [Hs1 Htop]. inversion_clear Htop as [|? ? Ht _].
    rewrite stack_weight_app in Hw. unfold stack_weight at 2 in Hw.
    simpl in Hw. rewrite Nat.add_0_r in Hw.
    cbn [while_loop]. rewrite Array_pop_snoc.
    destruct top as [selector v]. unfold sound_element in Ht. simpl in Ht, Hw.
    destruct v as [ | | | | | | es]; try discriminate Ht.
    rewrite weight_object in Hw.
    cbn [cssObj parentSelector Object_entries bind].
    rewrite for_entries_eq, (throw_free_leaves es Ht). cbn [bind fst snd].
    rewrite emit_rule. cbn [app].
    rewrite IH.
    + f_equal. rewrite !flat_map_app, !rev_app_distr. cbn [flat_map].
      rewrite app_nil_r. unfold post_element at 3. cbn [parentSelector cssObj].
      rewrite flatten_postorder_object, rev_app_distr, <- !app_assoc.
      f_equal. f_equal. destruct (declarations es) as [|d [|d' ds]]; reflexivity.
    + apply Forall_app. split; [exact Hs1 | now apply children_sound].
    + rewrite stack_weight_app. pose proof (children_weight selector es). lia.
Qed.

(** The fuel [toCss] supplies is never used up, whatever the stack holds. *)
Lemma while_loop_fuel fuel : forall stack lines,
  Forall (fun e => nested_element e = true) stack ->
  stack_weight stack <= fuel ->
  while_loop fuel stack lines <> OutOfFuel.
Proof.
  induction fuel as [|fuel IH]; intros stack lines Hs Hw;
    destruct stack as [|top stack1 _] using rev_ind.
  - discriminate.
  - rewrite stack_weight_app in Hw. unfold stack_weight at 2 in Hw.
    simpl in Hw. pose proof (weight_pos (cssObj top)). lia.
  - discriminate.
  - apply Forall_app in Hs as [Hs1 Htop]. inversion_clear Htop as [|? ? Ht _].
    rewrite stack_weight_app in Hw. unfold stack_weight at 2 in Hw.
    simpl in Hw. rewrite Nat.add_0_r in Hw.
    cbn [while_loop]. rewrite Array_pop_snoc.
    destruct top as [selector v]. unfold nested_element in Ht. simpl in Ht, Hw.
    destruct (is_nested_cases v Ht) as [-> | [es ->]]; [discriminate|].
    rewrite weight_object in Hw.
    cbn [cssObj parentSelector Object_entries bind].
    rewrite for_entries_eq. destruct (leaves_convert es); [|discriminate].
    cbn [bind fst snd]. apply IH.
    + apply Forall_app. split; [exact Hs1 | apply children_nested].
    + rewrite stack_weight_app. pose proof (children_weight selector es). lia.
Qed.

End Flattening.

(* ------------------------------------------------------------------ *)
(** * [toCss] on objects *)

Section ToCss.
Context {Number : Type} `{JsNumber Number}.

Implicit Types (v : Value Number) (es : list (string * Value Number)).
Implicit Types (stack : list (StackElement (Number := Number))).

Lemma toCss_object es :
  toCss (VObject es)
  = (lines <- collect (VObject es) ;; Return (join "" (rev lines))).
Proof. reflexivity. Qed.

Lemma toCss_not_object v :
  is_object v = false ->
  toCss v
  = Throw (TypeError
             ("Expected an argument of type object, but got " ++ typeof v)).
Proof.
  destruct v as [ | | b | n | s | l | es]; intros Hv; try discriminate Hv;
    try reflexivity.
  - unfold toCss. destruct (negb (truthy (VBoolean b))); reflexivity.
  - unfold toCss. destruct (negb (truthy (VNumber n))); reflexivity.
  - unfold toCss. destruct (negb (truthy (VString s))); reflexivity.
Qed.

Lemma collect_throw_free es :
  throw_free (VObject es) = true ->
  collect (VObject es) = Return (rev (flatten_postorder "" (VObject es))).
Proof.
  intros Htf. unfold collect. rewrite while_loop_postorder.
  - cbn [flat_map app]. now rewrite app_nil_r.
  - constructor; [exact Htf | constructor].
  - unfold stack_weight. simpl. lia.
Qed.

Lemma toCss_throw_free es :
  throw_free (VObject es) = true ->
  toCss (VObject es) = Return (join "" (flatten_postorder "" (VObject es))).
Proof.
  intros Htf. rewrite toCss_object, (collect_throw_free es Htf).
  cbn [bind]. now rewrite rev_involutive.
Qed.

Lemma is_CssObject_object v :
  is_CssObject v = true -> exists es, v = VObject es.
Proof. destruct v; try discriminate; eauto. Qed.

Lemma is_CssObject_throw_free v :
  is_CssObject v = true -> throw_free v = true.
Proof.
  induction v as [ | | b | n | s | l | es IH] using Value_entries_ind;
    try discriminate.
  rewrite throw_free_object. simpl.
  induction es as [|[k x] es IHes]; [reflexivity|].
  inversion_clear IH as [|? ? Hx Hes]. simpl in Hx |- *.
  intros Hv. apply andb_true_iff in Hv as [Hvx Hves].
  rewrite (IHes Hes Hves), andb_true_r.
  destruct x; try discriminate Hvx; try reflexivity.
  now apply Hx.
Qed.


(** Entries that are all leaves whose conversion returns. *)
Lemma leaves_only es :
  forallb (fun e => negb (is_nested (snd e)) && converts (snd e)) es = true ->
  forallb (fun e => negb (is_nested (snd e))) es = true
  /\ throw_free (VObject es) = true.
Proof.
  rewrite throw_free_object.
  induction es as [|[k x] es IH]; cbn [forallb snd]; [now split|].
  intros Hl. apply andb_true_iff in Hl as [Hx Hes].
  apply andb_true_iff in Hx as [Hleaf Hconv].
  destruct (IH Hes) as [-> ->]. rewrite Hleaf, !andb_true_r. split; [reflexivity|].
  destruct x; try discriminate Hleaf; exact Hconv.
Qed.

Lemma leaves_children parent es :
  forallb (fun e => negb (is_nested (snd e))) es = true ->
  children parent es = [].
Proof.
  induction es as [|[k x] es IH]; simpl; [reflexivity|].
  intros Hl. apply andb_true_iff in Hl as [Hx Hes].
  apply negb_true_iff in Hx. rewrite Hx. now apply IH.
Qed.

Lemma leaves_declarations es :
  forallb (fun e => negb (is_nested (snd e))) es = true ->
  declarations es
  = map (fun e => caseConverter (fst e) ++ ":"
                  ++ text_of (ToString (snd e)) ++ ";") es.
Proof.
  induction es as [|[k x] es IH]; simpl; [reflexivity|].
  intros Hl. apply andb_true_iff in Hl as [Hx Hes].
  apply negb_true_iff in Hx. rewrite Hx, (IH Hes). reflexivity.
Qed.

Lemma nested_declarations es :
  forallb (fun e => is_nested (snd e)) es = true -> declarations es = [].
Proof.
  induction es as [|[k x] es IH]; simpl; [reflexivity|].
  intros Hl. apply andb_true_iff in Hl as [Hx Hes].
  rewrite Hx. now apply IH.
Qed.

Lemma nested_children es :
  forallb (fun e => is_nested (snd e)) es = true ->
  children "" es
  = map (fun e => {| parentSelector := "." ++ caseConverter (fst e);
                     cssObj := snd e |}) es.
Proof.
  induction es as [|[k x] es IH]; simpl; [reflexivity|].
  intros Hl. apply andb_true_iff in Hl as [Hx Hes].
  rewrite Hx, (IH Hes). reflexivity.
Qed.

(** A root of leaf entries gives one block with the empty selector. *)
Lemma toCss_leaves e es :
  forallb (fun e => negb (is_nested (snd e)) && converts (snd e)) (e :: es)
  = true ->
  toCss (VObject (e :: es))
  = Return ("" ++ "{"
            ++ join ""
                 (map (fun e => caseConverter (fst e) ++ ":"
                                ++ text_of (ToString (snd e)) ++ ";") (e :: es))
            ++ "}").
Proof.
  intros Hl. destruct (leaves_only _ Hl) as [Hleaves Htf].
  rewrite (toCss_throw_free _ Htf).
  rewrite flatten_postorder_object, (leaves_children "" _ Hleaves),
    (leaves_declarations _ Hleaves).
  reflexivity.
Qed.

Lemma toCss_one_leaf k v :
  is_nested v = false -> converts v = true ->
  toCss (VObject [(k, v)])
  = Return ("{" ++ (caseConverter k ++ ":" ++ text_of (ToString v) ++ ";")
            ++ "}").
Proof.
  intros Hv Hc. rewrite toCss_leaves; [reflexivity|].
  cbn [forallb snd]. now rewrite Hv, Hc.
Qed.

Lemma nest_object ks es : exists es', nest ks (VObject es) = VObject es'.
Proof. destruct ks; cbn [nest fold_right]; eauto. Qed.

Lemma nest_is_nested ks es : is_nested (nest ks (VObject es)) = true.
Proof. destruct ks; reflexivity. Qed.

Lemma nest_throw_free ks es :
  throw_free (VObject es) = true -> throw_free (nest ks (VObject es)) = true.
Proof.
  intros Hes. induction ks as [|k ks IH]; [exact Hes|].
  cbn [nest fold_right]. fold (nest ks (VObject es)).
  destruct (nest_object ks es) as [es' Hes']. rewrite Hes' in IH |- *.
  rewrite throw_free_object. cbn [forallb snd]. now rewrite IH.
Qed.

Lemma flatten_postorder_nest ks es : forall parent,
  flatten_postorder parent (nest ks (VObject es))
  = flatten_postorder (fold_left child_selector ks parent) (VObject es).
Proof.
  induction ks as [|k ks IH]; intros parent; [reflexivity|].
  cbn [nest fold_right fold_left]. fold (nest ks (VObject es)).
  rewrite flatten_postorder_object. cbn [children declarations].
  rewrite nest_is_nested. cbn [flat_map rule]. rewrite !app_nil_r.
  unfold post_element. cbn [parentSelector cssObj]. apply IH.
Qed.

Lemma string_append_assoc (s1 s2 s3 : string) :
  (s1 ++ s2) ++ s3 = s1 ++ (s2 ++ s3).
Proof. induction s1 as [|c s1 IH]; simpl; [reflexivity | now rewrite IH]. Qed.

Lemma child_selector_chain ks : forall c parent,
  fold_left child_selector ks (String c parent)
  = join " " (String c parent :: map (fun k => "." ++ caseConverter k) ks).
Proof.
  induction ks as [|k ks IH]; intros c parent; [reflexivity|].
  cbn [fold_left map]. change (child_selector (String c parent) k)
    with (String c (parent ++ " ." ++ caseConverter k)).
  rewrite IH. unfold join.
  change (String.concat " "
            (String c parent :: ("." ++ caseConverter k)
             :: map (fun k0 => "." ++ caseConverter k0) ks))
    with (String c parent ++ " "
          ++ String.concat " "
               (("." ++ caseConverter k)
                :: map (fun k0 => "." ++ caseConverter k0) ks)).
  destruct ks as [|k' ks]; cbn [map].
  - reflexivity.
  - cbn [String.concat].
    change (String c (parent ++ " ." ++ caseConverter k))
      with (String c parent ++ " " ++ ("." ++ caseConverter k)).
    now rewrite !string_append_assoc.
Qed.

Lemma fold_child_selector ks :
  fold_left child_selector ks "" = selector_chain ks.
Proof.
  destruct ks as [|k ks]; [reflexivity|].
  cbn [fold_left]. change (child_selector "" k) with (String "." (caseConverter k)).
  now rewrite child_selector_chain.
Qed.

(** A chain of keys around a node of leaf entries. *)
Lemma toCss_chain ks e es :
  forallb (fun e => negb (is_nested (snd e)) && converts (snd e)) (e :: es)
  = true ->
  toCss (nest ks (VObject (e :: es)))
  = Return (selector_chain ks ++ "{"
            ++ join ""
                 (map (fun e => caseConverter (fst e) ++ ":"
                                ++ text_of (ToString (snd e)) ++ ";") (e :: es))
            ++ "}").
Proof.
  intros Hl. destruct (leaves_only _ Hl) as [Hleaves Htf].
  destruct (nest_object ks (e :: es)) as [es' Hobj].
  pose proof (nest_throw_free ks _ Htf) as Hnest.
  rewrite Hobj in Hnest. rewrite Hobj, (toCss_throw_free es' Hnest), <- Hobj.
  rewrite flatten_postorder_nest, fold_child_selector.
  rewrite flatten_postorder_object, (leaves_children _ _ Hleaves),
    (leaves_declarations _ Hleaves).
  reflexivity.
Qed.

Lemma toCss_one_nested_leaf k k' v :
  is_nested v = false -> converts v = true ->
  toCss (VObject [(k, VObject [(k', v)])])
  = Return (("." ++ caseConverter k)
            ++ "{" ++ (caseConverter k' ++ ":" ++ text_of (ToString v) ++ ";")
            ++ "}").
Proof.
  intros Hv Hc.
  change (VObject [(k, VObject [(k', v)])]) with (nest [k] (VObject [(k', v)])).
  rewrite toCss_chain; [reflexivity|].
  cbn [forallb snd]. now rewrite Hv, Hc.
Qed.

(** The fuel is enough on every value: [toCss] returns or throws. *)
Lemma toCss_terminates v : toCss v <> OutOfFuel.
Proof.
  destruct (is_object v) eqn:Hv.
  - destruct v as [ | | | | | | es]; try discriminate Hv.
    rewrite toCss_object. unfold collect.
    destruct (while_loop _ _ _) eqn:Hloop; try discriminate.
    exfalso. revert Hloop. apply while_loop_fuel.
    + constructor; [reflexivity | constructor].
    + unfold stack_weight. simpl. lia.
  - rewrite (toCss_not_object v Hv). discriminate.
Qed.

End ToCss.

(* ------------------------------------------------------------------ *)
(** * The flat rules of the output *)

Section FlatRules.
Context {Number : Type} `{JsNumber Number}.

Implicit Types (v : Value Number) (es : list (string * Value Number)).

Lemma flat_rules_object selector es :
  flat_rules selector (VObject es)
  = (flat_map (fun e => flat_rules (parentSelector e) (cssObj e))
       (children selector es)
     ++ [(selector, declarations es)])%list.
Proof.
  simpl. f_equal.
  induction es as [|[k x] es IH]; simpl; [reflexivity|].
  rewrite IH. destruct (is_nested x); reflexivity.
Qed.

Lemma rule_block selector (decls : list string) :
  rule selector decls = map block (filter has_declarations [(selector, decls)]).
Proof. destruct decls; reflexivity. Qed.

(** The blocks of the post-order flattening are those of the nodes that
    have declarations. *)
Lemma flatten_postorder_flat_rules v : forall selector,
  flatten_postorder selector v
  = map block (filter has_declarations (flat_rules selector v)).
Proof.
  induction v as [ | | b | n | s | l | es IH] using Value_entries_ind;
    intros selector; try reflexivity.
  rewrite flatten_postorder_object, flat_rules_object, filter_app, map_app,
    <- rule_block.
  f_equal. induction es as [|[k x] es IHes]; [reflexivity|].
  inversion_clear IH as [|? ? Hx Hes]. cbn [children].
  destruct (is_nested x); [|now apply IHes].
  cbn [flat_map]. rewrite filter_app, map_app, <- (IHes Hes). f_equal.
  unfold post_element. cbn [parentSelector cssObj snd] in *. apply Hx.
Qed.

End FlatRules.

(* ------------------------------------------------------------------ *)
(** * Errors of the loop *)

Section LoopErrors.
Context {Number : Type} `{JsNumber Number}.

Implicit Types (v : Value Number) (es : list (string * Value Number)).
Implicit Types (stack : list (StackElement (Number := Number))).

Lemma Object_entries_throw v e :
  Object_entries v = Throw e -> e = NativeTypeError.
Proof. destruct v; simpl; intros [=]; congruence. Qed.

Lemma while_loop_throw fuel : forall stack lines e,
  while_loop fuel stack lines = Throw e -> e = NativeTypeError.
Proof.
  induction fuel as [|fuel IH]; intros stack lines e;
    destruct stack as [|top stack1 _] using rev_ind;
    cbn [while_loop]; rewrite ?Array_pop_snoc; try discriminate.
  destruct (Object_entries (cssObj top)) as [entries | e' | ] eqn:He;
    cbn [bind]; try discriminate.
  - rewrite for_entries_eq. destruct (leaves_convert entries); cbn [bind].
    + apply IH.
    + now intros [= <-].
  - intros [= <-]. exact (Object_entries_throw _ _ He).
Qed.

Lemma toCss_object_throw es e :
  toCss (VObject es) = Throw e -> e = NativeTypeError.
Proof.
  rewrite toCss_object.
  destruct (collect (VObject es)) as [lines | e' | ] eqn:Hc; cbn [bind];
    try discriminate.
  intros [= <-]. exact (while_loop_throw _ _ _ _ Hc).
Qed.

Lemma children_faulty parent es :
  throw_free (VObject es) = false -> leaves_convert es = true ->
  Exists (fun e => faulty (cssObj e) = true) (children parent es).
Proof.
  rewrite throw_free_object. unfold leaves_convert.
  induction es as [|[k x] es IH]; cbn [forallb snd children]; [discriminate|].
  intros Htf Hl. apply andb_true_iff in Hl as [Hx Hl].
  apply andb_false_iff in Htf as [Hbad | Hes].
  - destruct x as [ | | | | | | es']; cbn [is_nested typeof Array_isArray
      String.eqb Ascii.eqb Bool.eqb andb negb orb] in Hx |- *;
      try congruence.
    + now left.
    + left. cbn [cssObj faulty]. now rewrite Hbad.
  - destruct (is_nested x); [right|]; now apply IH.
Qed.

(** A stack that holds [null], or an object that is not [throw_free], makes
    the loop throw. *)
Lemma while_loop_faulty fuel : forall stack lines,
  Forall (fun e => nested_element e = true) stack ->
  Exists (fun e => faulty (cssObj e) = true) stack ->
  stack_weight stack <= fuel ->
  while_loop fuel stack lines = Throw NativeTypeError.
Proof.
  induction fuel as [|fuel IH]; intros stack lines Hs Hbad Hw;
    destruct stack as [|top stack1 _] using rev_ind;
    try (now inversion Hbad).
  - rewrite stack_weight_app in Hw. unfold stack_weight at 2 in Hw.
    simpl in Hw. pose proof (weight_pos (cssObj top)). lia.
  - apply Forall_app in Hs as [Hs1 Htop]. inversion_clear Htop as [|? ? Ht _].
    rewrite stack_weight_app in Hw. unfold stack_weight at 2 in Hw.
    simpl in Hw. rewrite Nat.add_0_r in Hw.
    cbn [while_loop]. rewrite Array_pop_snoc.
    destruct top as [selector v]. unfold nested_element in Ht. simpl in Ht, Hw.
    destruct (is_nested_cases v Ht) as [-> | [es ->]]; [reflexivity|].
    rewrite weight_object in Hw.
    cbn [cssObj parentSelector Object_entries bind].
    rewrite for_entries_eq.
    destruct (leaves_convert es) eqn:Hl; [|reflexivity].
    cbn [bind fst snd]. apply IH.
    + apply Forall_app. split; [exact Hs1 | apply children_nested].
    + apply Exists_app. apply Exists_app in Hbad as [Hbad | Hbad].
      * now left.
      * right. inversion_clear Hbad as [? ? Htop | ? ? Hnil];
          [|now inversion Hnil].
        apply children_faulty; [|exact Hl]. cbn [cssObj faulty] in Htop.
        now apply negb_true_iff in Htop.
    + rewrite stack_weight_app. pose proof (children_weight selector es). lia.
Qed.

Lemma toCss_not_throw_free es :
  throw_free (VObject es) = false ->
  toCss (VObject es) = Throw NativeTypeError.
Proof.
  intros Htf. rewrite toCss_object. unfold collect.
  rewrite while_loop_faulty; [reflexivity | | | ].
  - constructor; [reflexivity | constructor].
  - left. cbn [cssObj faulty]. now rewrite Htf.
  - unfold stack_weight. simpl. lia.
Qed.

Lemma postorder_of_nested es :
  forallb (fun e => is_object (snd e) && throw_free (snd e)) es = true ->
  throw_free (VObject es) = true
  /\ flatten_postorder "" (VObject es)
     = flat_map (fun e => flatten_postorder ("." ++ caseConverter (fst e)) (snd e))
         es.
Proof.
  intros Hes. split.
  - rewrite throw_free_object.
    induction es as [|[k x] es IH]; cbn [forallb snd] in *; [reflexivity|].
    apply andb_true_iff in Hes as [Hx Hes]. rewrite (IH Hes), andb_true_r.
    destruct x; try discriminate Hx. exact Hx.
  - assert (Hn : forallb (fun e => is_nested (snd e)) es = true).
    { induction es as [|[k x] es IH]; cbn [forallb snd] in *; [reflexivity|].
      apply andb_true_iff in Hes as [Hx Hes]. rewrite (IH Hes), andb_true_r.
      destruct x; try discriminate Hx. reflexivity. }
    rewrite flatten_postorder_object, (nested_declarations es Hn),
      (nested_children es Hn). cbn [rule]. rewrite app_nil_r.
    clear. induction es as [|[k x] es IH]; cbn [map flat_map]; [reflexivity|].
    now rewrite IH.
Qed.

End LoopErrors.

(* ------------------------------------------------------------------ *)
(** * The claims on [toCss] *)

Section ToCssClaims.
Context {Number : Type} `{JsNumber Number}.

Implicit Types (v : Value Number) (es : list (string * Value Number)).

Lemma primitive_converts v : is_primitive v = true -> converts v = true.
Proof. destruct v; try discriminate; reflexivity. Qed.

Lemma primitives_array_converts (l : list (Value Number)) :
  forallb is_primitive l = true -> converts (VArray l) = true.
Proof.
  intros Hl. unfold converts. rewrite ToString_array.
  assert (Hparts : exists parts, array_parts l = Return parts).
  { induction l as [|x l IH]; [now exists []|].
    cbn [forallb] in Hl. apply andb_true_iff in Hl as [Hx Hl].
    destruct (IH Hl) as [parts Hparts]. cbn [array_parts]. rewrite Hparts.
    destruct x; try discriminate Hx; eexists; reflexivity. }
  destruct Hparts as [parts ->]. reflexivity.
Qed.

(** C1, as amended.  For every valid StyleNode (a value of type [CssObject])
    the string [toCss] returns is the post-order recursive flattening: the
    rules of the nested nodes of a node, taken in entry order and each
    flattened the same way, come before the rule of the node itself.  The
    stack traversal followed by the reversal produces exactly this text. *)
Theorem toCss_is_postorder_C1 (obj : Value Number) :
  is_CssObject obj = true ->
  toCss obj = Return (join "" (flatten_postorder "" obj)).
Proof.
  intros Hobj. destruct (is_CssObject_object obj Hobj) as [es ->].
  apply toCss_throw_free. now apply is_CssObject_throw_free.
Qed.

(** C2.  On [null], an array or a primitive ([undefined], boolean, number,
    string) [toCss] throws the TypeError of line 33, whose message ends with
    [typeof] of the argument (["object"] for [null] and for an array); on a
    non-null, non-array object it never throws a TypeError made at line 33. *)
Theorem toCss_type_check_C2 (v : Value Number) :
  (is_object v = false ->
   toCss v
   = Throw (TypeError
              ("Expected an argument of type object, but got " ++ typeof v)))
  /\ (is_object v = true ->
      forall message, toCss v <> Throw (TypeError message)).
Proof.
  split.
  - apply toCss_not_object.
  - destruct v as [ | | | | | | es]; try discriminate. intros _ message Hthrow.
    apply toCss_object_throw in Hthrow. discriminate.
Qed.

(** C4.  [{card:{title:{color:"red"}}}] gives [.card .title{color:red;}].
    On every object that makes nothing throw, the output is the
    concatenation of one block [selector{declarations}] for each node that
    has at least one direct declaration, and of nothing for the other nodes.
    With a node of leaf entries under one key the selector is ['.' + key];
    under a key below a parent key it is ['.' + parent + ' .' + key], the
    root and the parent, which have no declaration, giving no block. *)
Theorem toCss_deep_nesting_C4 :
  toCss (Number := Number) Samples.card_title = Return ".card .title{color:red;}"
  /\ (forall es,
        throw_free (VObject es) = true ->
        toCss (VObject es)
        = Return (join ""
                    (map block
                       (filter has_declarations
                          (flat_rules "" (VObject es))))))
  /\ (forall key e es,
        forallb (fun e => negb (is_nested (snd e)) && converts (snd e))
          (e :: es) = true ->
        toCss (VObject [(key, VObject (e :: es))])
        = Return (("." ++ caseConverter key) ++ "{"
                  ++ join ""
                       (map (fun e => caseConverter (fst e) ++ ":"
                                      ++ text_of (ToString (snd e)) ++ ";")
                          (e :: es))
                  ++ "}"))
  /\ (forall parent key e es,
        forallb (fun e => negb (is_nested (snd e)) && converts (snd e))
          (e :: es) = true ->
        toCss (VObject [(parent, VObject [(key, VObject (e :: es))])])
        = Return ((("." ++ caseConverter parent) ++ " ." ++ caseConverter key)
                  ++ "{"
                  ++ join ""
                       (map (fun e => caseConverter (fst e) ++ ":"
                                      ++ text_of (ToString (snd e)) ++ ";")
                          (e :: es))
                  ++ "}")).
Proof.
  split; [reflexivity|]. split; [|split].
  - intros es Htf.
    now rewrite (toCss_throw_free es Htf), flatten_postorder_flat_rules.
  - intros key e es Hl. exact (toCss_chain [key] e es Hl).
  - intros parent key e es Hl. exact (toCss_chain [parent; key] e es Hl).
Qed.

(** C5.  [{a:{color:"red"}, b:{color:"blue"}}] gives
    [.a{color:red;}.b{color:blue;}]; in general, when every entry of the root
    is a nested node that makes nothing throw, the output is the
    concatenation of the outputs of the entries in entry order. *)
Theorem toCss_sibling_order_C5 :
  toCss (Number := Number) Samples.two_siblings
  = Return ".a{color:red;}.b{color:blue;}"
  /\ (forall es,
        forallb (fun e => is_object (snd e) && throw_free (snd e)) es = true ->
        toCss (VObject es)
        = Return (join ""
                    (flat_map
                       (fun e => flatten_postorder
                                   ("." ++ caseConverter (fst e)) (snd e))
                       es))).
Proof.
  split; [reflexivity|].
  intros es Hes. destruct (postorder_of_nested es Hes) as [Htf Hpost].
  now rewrite (toCss_throw_free es Htf), Hpost.
Qed.

(** C6.  [{color:"red"}] gives [{color:red;}]; in general a root that has
    only leaf entries, at least one, each with a value whose conversion to a
    string returns, gives a single rule block whose selector is the empty
    string of the root work item. *)
Theorem toCss_root_leaves_C6 :
  toCss (Number := Number) Samples.root_leaf = Return "{color:red;}"
  /\ collect (Number := Number) Samples.root_leaf = Return ["" ++ "{color:red;}"]
  /\ (forall e es,
        forallb (fun e => negb (is_nested (snd e)) && converts (snd e))
          (e :: es) = true ->
        toCss (VObject (e :: es))
        = Return ("" ++ "{"
                  ++ join ""
                       (map (fun e => caseConverter (fst e) ++ ":"
                                      ++ text_of (ToString (snd e)) ++ ";")
                          (e :: es))
                  ++ "}")).
Proof.
  split; [reflexivity|]. split; [reflexivity|]. exact toCss_leaves.
Qed.

(** C7, as amended.  An object in which no entry, at any depth of nested
    objects, is [null], and in which the conversion of every leaf value to a
    string returns, makes [toCss] return: the traversal throws nothing, and a
    leaf entry of any kind is written with the text of its conversion into
    its ["key:value;"] declaration.  The conversion returns for every
    primitive value and for every array of primitive values. *)
Theorem toCss_returns_when_throw_free_C7 es :
  throw_free (VObject es) = true ->
  toCss (VObject es) = Return (join "" (flatten_postorder "" (VObject es)))
  /\ (forall id v,
        In (id, v) es -> is_nested v = false ->
        exists text,
          ToString v = Return text
          /\ In (caseConverter id ++ ":" ++ text ++ ";") (declarations es))
  /\ (forall v, is_primitive v = true -> converts v = true)
  /\ (forall l, forallb is_primitive l = true -> converts (VArray l) = true).
Proof.
  intros Htf. split; [now apply toCss_throw_free|].
  split; [|split; [exact primitive_converts | exact primitives_array_converts]].
  apply throw_free_leaves in Htf. unfold leaves_convert in Htf.
  intros id v. induction es as [|[k x] es IH]; simpl; [tauto|].
  cbn [forallb snd] in Htf. apply andb_true_iff in Htf as [Hx Hes].
  intros [[= -> ->] | Hin] Hv.
  - rewrite Hv in Hx |- *. cbn [orb] in Hx.
    exists (text_of (ToString v)). split; [now apply converts_true | now left].
  - destruct (IH Hes Hin Hv) as [text [Ht Hd]]. exists text. split; [exact Ht|].
    destruct (is_nested x); [|right]; exact Hd.
Qed.

End ToCssClaims.

(** C1: a valid StyleNode on which the output is not the pre-order
    flattening.  The root has a declaration and a nested node; the rule of
    the nested node comes first in the output. *)
Lemma toCss_not_preorder_C1 :
  is_CssObject Samples.parent_and_child = true
  /\ toCss Samples.parent_and_child = Return ".a{color:blue;}{color:red;}"
  /\ join "" (flatten_preorder "" Samples.parent_and_child)
     = "{color:red;}.a{color:blue;}"
  /\ toCss Samples.parent_and_child
     <> Return (join "" (flatten_preorder "" Samples.parent_and_child)).
Proof. repeat split; try reflexivity. discriminate. Qed.

Lemma toCss_is_postorder_C1_witness :
  is_CssObject Samples.three_levels = true
  /\ toCss Samples.three_levels
     = Return ".a .b{height:2;}.a{width:10;}.c{margin:0;}".
Proof.
  split; [reflexivity|].
  exact (toCss_is_postorder_C1 Samples.three_levels eq_refl).
Defined.

Lemma toCss_type_check_C2_witness :
  toCss (Number := Z) VNull
  = Throw (TypeError "Expected an argument of type object, but got object")
  /\ toCss (Number := Z) (VArray [VString "a"])
     = Throw (TypeError "Expected an argument of type object, but got object")
  /\ toCss (Number := Z) (VString "a")
     = Throw (TypeError "Expected an argument of type object, but got string")
  /\ toCss (VNumber 7%Z)
     = Throw (TypeError "Expected an argument of type object, but got number")
  /\ toCss (Number := Z) (VBoolean true)
     = Throw (TypeError "Expected an argument of type object, but got boolean")
  /\ toCss (Number := Z) VUndefined
     = Throw (TypeError "Expected an argument of type object, but got undefined")
  /\ toCss Samples.null_entry
     <> Throw (TypeError "Expected an argument of type object, but got object").
Proof.
  refine (conj _ (conj _ (conj _ (conj _ (conj _ (conj _ _)))))).
  - exact (proj1 (toCss_type_check_C2 (Number := Z) VNull) eq_refl).
  - exact (proj1 (toCss_type_check_C2 (Number := Z) (VArray [VString "a"])) eq_refl).
  - exact (proj1 (toCss_type_check_C2 (Number := Z) (VString "a")) eq_refl).
  - exact (proj1 (toCss_type_check_C2 (VNumber 7%Z)) eq_refl).
  - exact (proj1 (toCss_type_check_C2 (Number := Z) (VBoolean true)) eq_refl).
  - exact (proj1 (toCss_type_check_C2 (Number := Z) VUndefined) eq_refl).
  - exact (proj2 (toCss_type_check_C2 Samples.null_entry) eq_refl _).
Defined.

Lemma toCss_deep_nesting_C4_witness :
  toCss Samples.three_levels
  = Return (join ""
              (map block
                 [(".a .b", ["height:2;"]); (".a", ["width:10;"]);
                  (".c", ["margin:0;"])]))
  /\ flat_rules "" Samples.three_levels
     = [(".a .b", ["height:2;"]); (".a", ["width:10;"]);
        (".c", ["margin:0;"]); ("", [])]
  /\ toCss (Number := Z)
       (VObject [("navBar",
                  VObject [("menuItem",
                            VObject [("fontSize", VNumber 12%Z);
                                     ("color", VString "red")])])])
     = Return ".nav-bar .menu-item{font-size:12;color:red;}".
Proof.
  refine (conj _ (conj eq_refl _)).
  - exact (proj1 (proj2 (toCss_deep_nesting_C4 (Number := Z)))
             [("a", VObject [("width", VNumber 10%Z);
                             ("b", VObject [("height", VNumber 2%Z)])]);
              ("c", VObject [("margin", VNumber 0%Z)])] eq_refl).
  - exact (proj2 (proj2 (proj2 (toCss_deep_nesting_C4 (Number := Z))))
             "navBar" "menuItem" ("fontSize", VNumber 12%Z)
             [("color", VString "red")] eq_refl).
Defined.

Lemma toCss_sibling_order_C5_witness :
  toCss Samples.three_levels
  = Return ".a .b{height:2;}.a{width:10;}.c{margin:0;}".
Proof.
  exact (proj2 (toCss_sibling_order_C5 (Number := Z))
           [("a", VObject [("width", VNumber 10%Z);
                           ("b", VObject [("height", VNumber 2%Z)])]);
            ("c", VObject [("margin", VNumber 0%Z)])] eq_refl).
Defined.

Lemma toCss_root_leaves_C6_witness :
  toCss Samples.odd_leaves = Return "{a:true;b:undefined;c:1,,x;}".
Proof.
  exact (proj2 (proj2 (toCss_root_leaves_C6 (Number := Z)))
           ("a", VBoolean true)
           [("b", VUndefined); ("c", VArray [VNumber 1%Z; VNull; VString "x"])]
           eq_refl).
Defined.

(** C7: an object that passes the check of line 32 and makes the traversal
    throw.  [typeof null] is ["object"], so the entry is pushed as a nested
    node, and [Object.entries(null)] throws. *)
Lemma toCss_null_entry_throws_C7 :
  is_object Samples.null_entry = true
  /\ toCss Samples.null_entry = Throw NativeTypeError.
Proof. split; reflexivity. Qed.

Lemma toCss_returns_when_throw_free_C7_witness :
  throw_free Samples.odd_leaves = true
  /\ toCss Samples.odd_leaves = Return "{a:true;b:undefined;c:1,,x;}"
  /\ (exists text,
        ToString (Number := Z) (VArray [VNumber 1%Z; VNull; VString "x"])
        = Return text
        /\ In ("c:" ++ text ++ ";") ["a:true;"; "b:undefined;"; "c:1,,x;"]).
Proof.
  split; [reflexivity|]. split.
  - exact (proj1 (toCss_returns_when_throw_free_C7
                    [("a", VBoolean true); ("b", VUndefined);
                     ("c", VArray [VNumber 1%Z; VNull; VString "x"])] eq_refl)).
  - exact (proj1 (proj2 (toCss_returns_when_throw_free_C7
                    [("a", VBoolean true); ("b", VUndefined);
                     ("c", VArray [VNumber 1%Z; VNull; VString "x"])] eq_refl))
             "c" (VArray [VNumber 1%Z; VNull; VString "x"])
             (or_intror (or_intror (or_introl eq_refl))) eq_refl).
Defined.
(* ------------------------------------------------------------------ *)
(** * [caseConverter] *)

Lemma map_chars_app f (s1 s2 : string) :
  map_chars f (s1 ++ s2) = map_chars f s1 ++ map_chars f s2.
Proof. induction s1 as [|c s1 IH]; simpl; [reflexivity | now rewrite IH]. Qed.

Lemma append_empty_r (s : string) : s ++ "" = s.
Proof. induction s as [|c s IH]; simpl; [reflexivity | now rewrite IH]. Qed.

Lemma append_assoc (s1 s2 s3 : string) : (s1 ++ s2) ++ s3 = s1 ++ (s2 ++ s3).
Proof. induction s1 as [|c s1 IH]; simpl; [reflexivity | now rewrite IH]. Qed.

Lemma concat_cons2 (sep x y : string) (l : list string) :
  String.concat sep (x :: y :: l) = x ++ sep ++ String.concat sep (y :: l).
Proof. reflexivity. Qed.

Lemma char_toLowerCase_not_upper c :
  is_upper c = false -> char_toLowerCase c = c.
Proof. unfold char_toLowerCase. now intros ->. Qed.

(** Splitting, joining with a hyphen and lower-casing, read character by
    character; [pre] is the part of the running segment already read. *)
Lemma split_join_lower (s pre : string) :
  toLowerCase
    (join "-" (let '(seg, segs) := split_rest s in (pre ++ seg) :: segs))
  = toLowerCase pre ++ kebab_rest s.
Proof.
  revert pre. induction s as [|c s IH]; intros pre.
  - simpl. now rewrite !append_empty_r.
  - cbn [split_rest kebab_rest]. specialize (IH (String c "")) as IHup.
    specialize (IH (pre ++ String c "")) as IHlow.
    destruct (split_rest s) as [seg segs]. destruct (is_upper c) eqn:Hc.
    + unfold join in *. rewrite concat_cons2. unfold toLowerCase in *.
      rewrite !map_chars_app, append_empty_r.
      cbn [append] in IHup. rewrite IHup. reflexivity.
    + unfold toLowerCase in *. rewrite append_assoc in IHlow.
      cbn [append] in IHlow. rewrite IHlow, map_chars_app. cbn [map_chars].
      rewrite (char_toLowerCase_not_upper c Hc), append_assoc. reflexivity.
Qed.

Lemma toLowerCase_split_join c s :
  toLowerCase (join "-" (split_before_upper (String c s)))
  = String (char_toLowerCase c) (kebab_rest s).
Proof.
  unfold split_before_upper.
  exact (split_join_lower s (String c "")).
Qed.

(** The test of line 16 on one character. *)
Lemma isUppercase_test c :
  String.eqb (String c "") (toUpperCase (String c "")) = negb (is_lower c).
Proof.
  destruct c as [[] [] [] [] [] [] [] []]; reflexivity.
Qed.

Lemma caseConverter_cons c s :
  caseConverter (String c s)
  = if is_lower c
    then String c (kebab_rest s)
    else String "-" (String (char_toLowerCase c) (kebab_rest s)).
Proof.
  unfold caseConverter. rewrite isUppercase_test, toLowerCase_split_join.
  destruct (is_lower c) eqn:Hc; cbn [negb]; [|reflexivity].
  rewrite char_toLowerCase_not_upper; [reflexivity|].
  destruct c as [[] [] [] [] [] [] [] []]; try reflexivity; discriminate Hc.
Qed.

(** C3.  The four equations of the claim hold.  The prefix is decided by
    [str[0] === str[0].toUpperCase()], which is also true of a first
    character that is no letter at all: ["0pad"] gets the hyphen although
    ['0'] is not an upper-case letter. *)
Theorem caseConverter_equations_C3 :
  caseConverter "" = ""
  /\ caseConverter "backgroundColor" = "background-color"
  /\ caseConverter "borderTopWidth" = "border-top-width"
  /\ caseConverter "Hover" = "-hover"
  /\ is_upper "0" = false
  /\ caseConverter "0pad" = "-0pad".
Proof. repeat split. Qed.

(** C10.  For an ASCII identifier whose first character is not a lower-case
    letter, so that upper-casing leaves it unchanged, [caseConverter] puts a
    hyphen in front; when that character is a digit, punctuation or another
    character without case it follows the hyphen as it is.  A lower-case
    first letter gets no hyphen.  The hyphen shows in the declarations and
    selectors [toCss] writes for such keys.  [ascii_only] keeps the
    statement to the identifiers on which the case functions here are those
    of JavaScript. *)
Theorem caseConverter_caseless_prefix_C10 :
  caseConverter "0pad" = "-0pad"
  /\ caseConverter ":hover" = "-:hover"
  /\ toCss Samples.caseless_keys = Return ".-:hover{color:red;}{-0pad:1;}"
  /\ (forall c s,
        ascii_only (String c s) = true ->
        (is_lower c = false ->
         caseConverter (String c s)
         = String "-" (String (char_toLowerCase c) (kebab_rest s)))
        /\ (is_letter c = false ->
            caseConverter (String c s) = String "-" (String c (kebab_rest s)))
        /\ (is_lower c = true ->
            caseConverter (String c s) = String c (kebab_rest s)))
  /\ (forall c s value,
        ascii_only (String c s) = true -> is_letter c = false ->
        toCss (Number := Z) (VObject [(String c s, VString value)])
        = Return ("{" ++ (String "-" (String c (kebab_rest s))
                          ++ ":" ++ value ++ ";") ++ "}")
        /\ toCss (Number := Z)
             (VObject [(String c s, VObject [("color", VString value)])])
           = Return (("." ++ String "-" (String c (kebab_rest s)))
                     ++ "{" ++ ("color:" ++ value ++ ";") ++ "}")).
Proof.
  refine (conj eq_refl (conj eq_refl (conj eq_refl (conj _ _)))).
  - intros c s _. rewrite caseConverter_cons. repeat split.
    + now intros ->.
    + unfold is_letter. intros Hc. apply orb_false_iff in Hc as [Hu ->].
      now rewrite (char_toLowerCase_not_upper c Hu).
    + now intros ->.
  - intros c s value _ Hc.
    unfold is_letter in Hc. apply orb_false_iff in Hc as [Hu Hl].
    assert (Hk : caseConverter (String c s) = String "-" (String c (kebab_rest s))).
    { now rewrite caseConverter_cons, Hl, (char_toLowerCase_not_upper c Hu). }
    split.
    + rewrite toCss_one_leaf by reflexivity. cbn [ToString text_of].
      now rewrite Hk.
    + rewrite toCss_one_nested_leaf by reflexivity. cbn [ToString text_of].
      now rewrite Hk.
Qed.

Lemma caseConverter_caseless_prefix_C10_witness :
  ascii_only "0pad" = true /\ is_letter "0" = false
  /\ caseConverter "0pad" = "-0pad"
  /\ toCss (Number := Z) (VObject [("0pad", VString "1")]) = Return "{-0pad:1;}".
Proof.
  refine (conj eq_refl (conj eq_refl (conj _ _))).
  - exact (proj1 (proj2
             (proj1 (proj2 (proj2 (proj2 caseConverter_caseless_prefix_C10)))
                "0"%char "pad" eq_refl)) eq_refl).
  - exact (proj1
             (proj2 (proj2 (proj2 (proj2 caseConverter_caseless_prefix_C10)))
                "0"%char "pad" "1" eq_refl eq_refl)).
Defined.

(* ------------------------------------------------------------------ *)
(** * The claims on [injectStyle] *)

Section InjectStyleClaims.
Context {Number : Type} `{JsNumber Number}.
Context {Dom Element : Type} `{DomOps Dom Element}.

Implicit Types (v : Value Number) (w : World Dom).

Lemma truthy_not_empty_string v :
  truthy v = true ->
  String.eqb (typeof v) "string" && (string_length v =? 0)%nat = false.
Proof.
  destruct v as [ | | b | n | s | l | es]; try reflexivity.
  destruct s; [discriminate | reflexivity].
Qed.

Lemma replace_style_document v overridable oldStyle w :
  overridable = false ->
  document (snd (replace_style v overridable oldStyle w)) = document w.
Proof.
  intros ->. unfold replace_style.
  destruct (String.eqb _ "style"); reflexivity.
Qed.

(** C8.  When the content is [null] or [undefined], an array, or the empty
    string, [injectStyle] throws the Error of line 89 and the document and
    the console are as they were. *)
Theorem injectStyle_invalid_content_C8 v (id : option string)
    (overridable : option bool) (hostElement : option Element) w :
  invalid_content v = true ->
  injectStyle v id overridable hostElement w
  = (Throw (Error "Invalid input: textOrObject cannot be null or an array."), w).
Proof.
  destruct v as [ | | b | n | s | l | es]; try discriminate; try reflexivity.
  simpl. intros Hs. apply String.eqb_eq in Hs as ->. reflexivity.
Qed.

(** C9.  When the id names an element that is a <style> tag and
    [overridable] is false, the document is left as it was; and when the
    content passes the checks of lines 88-94, the call returns normally after
    one [console.warn]. *)
Theorem injectStyle_skip_C9 v (id : string) (hostElement : option Element)
    (oldStyle : Element) w :
  id <> "" ->
  document_getElementById id (document w) = Some oldStyle ->
  toLowerCase (get_tagName oldStyle (document w)) = "style" ->
  document (snd (injectStyle v (Some id) (Some false) hostElement w))
  = document w
  /\ (truthy v = true -> Array_isArray v = false ->
      injectStyle v (Some id) (Some false) hostElement w
      = (Return tt,
         {| document := document w;
            console :=
              Array_push (console w)
                "Style with the same id exists and overridable is set to false. Skipping."
         |})).
Proof.
  intros Hid Hfound Htag. apply String.eqb_neq in Hid. split.
  - unfold injectStyle.
    destruct (negb (truthy v) || Array_isArray v); [reflexivity|].
    destruct (String.eqb (typeof v) "string" && _); [reflexivity|].
    rewrite Hid, Hfound. cbn [negb]. now apply replace_style_document.
  - intros Hv Harr. unfold injectStyle.
    rewrite Hv, Harr, (truthy_not_empty_string v Hv), Hid, Hfound.
    cbn [negb orb]. unfold replace_style. rewrite Htag. reflexivity.
Qed.

End InjectStyleClaims.

Lemma injectStyle_invalid_content_C8_witness :
  injectStyle (Number := Z) (VString "") (Some "theme") None None
    {| document := ListDom.sample; console := [] |}
  = (Throw (Error "Invalid input: textOrObject cannot be null or an array."),
     {| document := ListDom.sample; console := [] |})
  /\ injectStyle (Number := Z) (VArray [VString "a{}"]) None None (Some 2)
       {| document := ListDom.sample; console := [] |}
     = (Throw (Error "Invalid input: textOrObject cannot be null or an array."),
        {| document := ListDom.sample; console := [] |}).
Proof.
  split.
  - exact (injectStyle_invalid_content_C8 (Number := Z) (VString "")
             (Some "theme") None None
             {| document := ListDom.sample; console := [] |} eq_refl).
  - exact (injectStyle_invalid_content_C8 (Number := Z) (VArray [VString "a{}"])
             None None (Some 2)
             {| document := ListDom.sample; console := [] |} eq_refl).
Defined.

Lemma theme_id_not_empty : "theme" <> "".
Proof. discriminate. Defined.

Lemma injectStyle_skip_C9_witness :
  injectStyle Samples.parent_and_child (Some "theme") (Some false) None
    {| document := ListDom.sample; console := [] |}
  = (Return tt,
     {| document := ListDom.sample;
        console :=
          ["Style with the same id exists and overridable is set to false. Skipping."]
     |}).
Proof.
  exact (proj2
           (injectStyle_skip_C9 Samples.parent_and_child "theme" None 1
              {| document := ListDom.sample; console := [] |}
              theme_id_not_empty eq_refl eq_refl)
           eq_refl eq_refl).
Defined.

(* ------------------------------------------------------------------ *)
(** * Further properties of [injectStyle] *)

Section InjectStylePaths.
Context {Number : Type} `{JsNumber Number}.
Context {Dom Element : Type} `{DomOps Dom Element}.

Implicit Types (v : Value Number) (w : World Dom).

Lemma toCss_no_Error v message : toCss v <> Throw (Error message).
Proof.
  destruct (is_object v) eqn:Hv.
  - destruct v as [ | | | | | | es]; try discriminate Hv.
    intros Hthrow. apply toCss_object_throw in Hthrow. discriminate.
  - rewrite (toCss_not_object v Hv). discriminate.
Qed.

Lemma style_text_no_Error v message : style_text v <> Throw (Error message).
Proof.
  unfold style_text. destruct (String.eqb (typeof v) "object").
  - apply toCss_no_Error.
  - destruct (ToString_outcome v) as [-> | ->]; discriminate.
Qed.

Lemma create_style_no_empty_error v id (host : Element) w :
  fst (create_style v id host w)
  <> Throw (Error "Invalid input: CSS string cannot be empty.").
Proof.
  unfold create_style. destruct (document_createElement _ _) as [style d1].
  destruct (style_text v) as [css | e | ] eqn:Ht; cbn [fst]; try discriminate.
  intros [= ->]. exact (style_text_no_Error v _ Ht).
Qed.

Lemma replace_style_no_empty_error v overridable (oldStyle : Element) w :
  fst (replace_style v overridable oldStyle w)
  <> Throw (Error "Invalid input: CSS string cannot be empty.").
Proof.
  unfold replace_style.
  destruct (negb _); [discriminate|].
  destruct (_ && _); [discriminate|].
  destruct (style_text v) as [css | e | ] eqn:Ht; cbn [fst]; try discriminate.
  intros [= ->]. exact (style_text_no_Error v _ Ht).
Qed.

(** With an id that names a <style> element and [overridable] left out or
    true, the text of that element is replaced by the style text of the
    content, and nothing else is done. *)
Theorem injectStyle_override v (id : string) (overridable : option bool)
    (hostElement : option Element) (oldStyle : Element) (css : string) w :
  truthy v = true -> Array_isArray v = false ->
  id <> "" -> overridable <> Some false ->
  document_getElementById id (document w) = Some oldStyle ->
  toLowerCase (get_tagName oldStyle (document w)) = "style" ->
  style_text v = Return css ->
  injectStyle v (Some id) overridable hostElement w
  = (Return tt,
     {| document := set_textContent oldStyle css (document w);
        console := console w |}).
Proof.
  intros Hv Harr Hid Hover Hfound Htag Hcss. apply String.eqb_neq in Hid.
  unfold injectStyle.
  rewrite Hv, Harr, (truthy_not_empty_string v Hv), Hid, Hfound.
  cbn [negb orb]. unfold replace_style. rewrite Htag, Hcss. cbn [String.eqb negb].
  destruct overridable as [[|]|]; try reflexivity. now elim Hover.
Qed.

(** With an id that names an element that is not a <style> tag the call
    throws the Error of line 101 and changes nothing. *)
Theorem injectStyle_not_style_tag v (id : string) (overridable : option bool)
    (hostElement : option Element) (oldStyle : Element) w :
  truthy v = true -> Array_isArray v = false ->
  id <> "" ->
  document_getElementById id (document w) = Some oldStyle ->
  toLowerCase (get_tagName oldStyle (document w)) <> "style" ->
  injectStyle v (Some id) overridable hostElement w
  = (Throw (Error "The provided id does not indicate a style tag."), w).
Proof.
  intros Hv Harr Hid Hfound Htag.
  apply String.eqb_neq in Hid. apply String.eqb_neq in Htag.
  unfold injectStyle.
  rewrite Hv, Harr, (truthy_not_empty_string v Hv), Hid, Hfound.
  cbn [negb orb]. unfold replace_style. now rewrite Htag.
Qed.

(** The check of line 92 never fires: the empty string is falsy and is
    already refused at line 88, so no call throws the Error of line 93. *)
Theorem injectStyle_empty_check_unreachable v (id : option string)
    (overridable : option bool) (hostElement : option Element) w :
  fst (injectStyle v id overridable hostElement w)
  <> Throw (Error "Invalid input: CSS string cannot be empty.").
Proof.
  unfold injectStyle.
  destruct (truthy v) eqn:Hv; cbn [negb orb]; [|discriminate].
  destruct (Array_isArray v); [discriminate|].
  rewrite (truthy_not_empty_string v Hv).
  destruct id as [i|]; [|apply create_style_no_empty_error].
  destruct (negb (String.eqb i "")); [|apply create_style_no_empty_error].
  destruct (document_getElementById i (document w)).
  - apply replace_style_no_empty_error.
  - apply create_style_no_empty_error.
Qed.

End InjectStylePaths.

Lemma overridable_default_not_false : @None bool <> Some false.
Proof. discriminate. Defined.

Lemma box_is_not_style : toLowerCase "DIV" <> "style".
Proof. discriminate. Defined.

Lemma box_id_not_empty : "box" <> "".
Proof. discriminate. Defined.

Lemma injectStyle_override_witness :
  injectStyle Samples.parent_and_child (Some "theme") None None
    {| document := ListDom.sample; console := [] |}
  = (Return tt,
     {| document :=
          ListDom.setTextContent 1 ".a{color:blue;}{color:red;}" ListDom.sample;
        console := [] |}).
Proof.
  exact (injectStyle_override Samples.parent_and_child "theme" None None 1
           ".a{color:blue;}{color:red;}"
           {| document := ListDom.sample; console := [] |}
           eq_refl eq_refl theme_id_not_empty overridable_default_not_false
           eq_refl eq_refl eq_refl).
Defined.

Lemma injectStyle_not_style_tag_witness :
  injectStyle (Number := Z) (VString ".a{color:red;}") (Some "box") None None
    {| document := ListDom.sample; console := [] |}
  = (Throw (Error "The provided id does not indicate a style tag."),
     {| document := ListDom.sample; console := [] |}).
Proof.
  exact (injectStyle_not_style_tag (Number := Z) (VString ".a{color:red;}")
           "box" None None 2
           {| document := ListDom.sample; console := [] |}
           eq_refl eq_refl box_id_not_empty eq_refl box_is_not_style).
Defined.

(** A call without an id appends a new <style> element to [document.head]. *)
Example injectStyle_appends :
  injectStyle (Number := Z) Samples.root_leaf None None None
    {| document := ListDom.sample; console := [] |}
  = (Return tt,
     {| document :=
          (ListDom.sample
           ++ [{| ListDom.node_tag := "STYLE"; ListDom.node_id := "";
                  ListDom.node_type := "text/css";
                  ListDom.node_text := "{color:red;}";
                  ListDom.node_parent := Some 0 |}])%list;
        console := [] |}).
Proof. reflexivity. Qed.

(* ------------------------------------------------------------------ *)
(** * Further properties of [caseConverter] *)

Lemma is_lower_not_upper c : is_lower c = true -> is_upper c = false.
Proof. destruct c as [[] [] [] [] [] [] [] []]; try reflexivity; discriminate. Qed.

Lemma char_toLowerCase_no_upper c : is_upper (char_toLowerCase c) = false.
Proof. destruct c as [[] [] [] [] [] [] [] []]; reflexivity. Qed.

Lemma kebab_rest_no_upper s : has_upper (kebab_rest s) = false.
Proof.
  induction s as [|c s IH]; [reflexivity|]. cbn [kebab_rest].
  destruct (is_upper c) eqn:Hc; cbn [has_upper].
  - now rewrite char_toLowerCase_no_upper, IH.
  - now rewrite Hc, IH.
Qed.

Lemma kebab_rest_fixed s : has_upper s = false -> kebab_rest s = s.
Proof.
  induction s as [|c s IH]; [reflexivity|]. cbn [has_upper kebab_rest].
  intros Hs. apply orb_false_iff in Hs as [-> Hs]. now rewrite (IH Hs).
Qed.

(** [caseConverter], character by character: a hyphen first unless the
    identifier starts with a lower-case letter; then the first character in
    lower case; then every later character, an upper-case letter being
    replaced by a hyphen and its lower-case form. *)
Theorem caseConverter_by_characters c s :
  ascii_only (String c s) = true ->
  caseConverter (String c s)
  = (if is_lower c then "" else "-")
    ++ String (char_toLowerCase c) (kebab_rest s).
Proof.
  intros _. rewrite caseConverter_cons.
  destruct (is_lower c) eqn:Hc; [|reflexivity].
  now rewrite (char_toLowerCase_not_upper c (is_lower_not_upper c Hc)).
Qed.

Lemma caseConverter_by_characters_witness :
  caseConverter "WebkitBoxShadow" = "-webkit-box-shadow".
Proof.
  exact (caseConverter_by_characters "W"%char "ebkitBoxShadow" eq_refl).
Defined.

(** The result of [caseConverter] holds no letter of [[A-Z]]. *)
Theorem caseConverter_no_upper s :
  ascii_only s = true -> has_upper (caseConverter s) = false.
Proof.
  intros _. destruct s as [|c s]; [reflexivity|]. rewrite caseConverter_cons.
  destruct (is_lower c) eqn:Hc; cbn [has_upper].
  - now rewrite (is_lower_not_upper c Hc), kebab_rest_no_upper.
  - now rewrite char_toLowerCase_no_upper, kebab_rest_no_upper.
Qed.

Lemma caseConverter_no_upper_witness :
  has_upper (caseConverter "borderTopWidth") = false.
Proof. exact (caseConverter_no_upper "borderTopWidth" eq_refl). Defined.

(** An identifier that starts with a lower-case letter and holds no
    upper-case letter, such as a name already hyphenated, is returned as it
    is.  Hence [caseConverter] is idempotent on identifiers that start with a
    lower-case letter; on any other identifier each further application puts
    one more hyphen in front. *)
Theorem caseConverter_twice c s :
  ascii_only (String c s) = true ->
  (is_lower c = true -> has_upper s = false ->
   caseConverter (String c s) = String c s)
  /\ (is_lower c = true ->
      caseConverter (caseConverter (String c s)) = caseConverter (String c s))
  /\ (is_lower c = false ->
      caseConverter (caseConverter (String c s))
      = String "-" (caseConverter (String c s))).
Proof.
  intros _. rewrite !caseConverter_cons. repeat split.
  - intros -> Hs. now rewrite (kebab_rest_fixed s Hs).
  - intros Hc. rewrite Hc, caseConverter_cons, Hc.
    now rewrite (kebab_rest_fixed _ (kebab_rest_no_upper s)).
  - intros Hc. rewrite Hc, caseConverter_cons.
    change (is_lower "-") with false. cbv iota.
    change (char_toLowerCase "-") with "-"%char. cbn [kebab_rest].
    rewrite char_toLowerCase_no_upper.
    now rewrite (kebab_rest_fixed _ (kebab_rest_no_upper s)).
Qed.

Lemma caseConverter_twice_witness :
  caseConverter "background-color" = "background-color"
  /\ caseConverter (caseConverter "backgroundColor") = "background-color"
  /\ caseConverter (caseConverter "Hover") = "--hover".
Proof.
  refine (conj _ (conj _ _)).
  - exact (proj1 (caseConverter_twice "b"%char "ackground-color" eq_refl)
             eq_refl eq_refl).
  - exact (proj1 (proj2 (caseConverter_twice "b"%char "ackgroundColor" eq_refl))
             eq_refl).
  - exact (proj2 (proj2 (caseConverter_twice "H"%char "over" eq_refl)) eq_refl).
Defined.

(* ------------------------------------------------------------------ *)
(* ------------------------------------------------------------------ *)
(** * Further properties of [toCss] *)

Section ToCssMore.
Context {Number : Type} `{JsNumber Number}.

Implicit Types (v : Value Number) (es : list (string * Value Number)).
Implicit Types (stack : list (StackElement (Number := Number))).


(** What [toCss] does on an object: it returns the post-order flattening
    when no entry at any depth of nested objects is [null] and every leaf
    converts, and throws the runtime's TypeError otherwise. *)
Theorem toCss_outcome es :
  toCss (VObject es)
  = if throw_free (VObject es)
    then Return (join "" (flatten_postorder "" (VObject es)))
    else Throw NativeTypeError.
Proof.
  destruct (throw_free (VObject es)) eqn:Htf.
  - now apply toCss_throw_free.
  - now apply toCss_not_throw_free.
Qed.

Lemma array_parts_hostile (l : list (Value Number)) es' :
  In (VObject es') l -> has_own_toString es' = true ->
  array_parts l = Throw NativeTypeError.
Proof.
  intros Hin Hown. induction l as [|x l IH]; [contradiction|].
  cbn [array_parts]. destruct Hin as [-> | Hin].
  - cbn [ToString]. now rewrite Hown.
  - rewrite (IH Hin).
    destruct x; cbn [bind]; try reflexivity;
      match goal with
      | |- bind (ToString ?x) _ = _ =>
          destruct (ToString_outcome x) as [-> | ->]; reflexivity
      end.
Qed.

(** An array that holds an object with an own [toString] entry does not
    convert to a string, and a leaf entry of the root that does not convert
    makes [toCss] throw the runtime's TypeError at the template literal of
    line 61. *)
Theorem toCss_throws_on_leaf :
  (forall (l : list (Value Number)) es',
     In (VObject es') l -> has_own_toString es' = true ->
     ToString (VArray l) = Throw NativeTypeError)
  /\ (forall es id v,
        In (id, v) es -> is_nested v = false ->
        ToString v = Throw NativeTypeError ->
        toCss (VObject es) = Throw NativeTypeError).
Proof.
  split.
  - intros l es' Hin Hown.
    now rewrite ToString_array, (array_parts_hostile l es' Hin Hown).
  - intros es id v Hin Hleaf Hthrow. apply toCss_not_throw_free.
    destruct (throw_free (VObject es)) eqn:Htf; [|reflexivity].
    apply throw_free_leaves in Htf. unfold leaves_convert in Htf.
    rewrite forallb_forall in Htf. specialize (Htf _ Hin). cbn [snd] in Htf.
    rewrite Hleaf in Htf. unfold converts in Htf. rewrite Hthrow in Htf.
    discriminate.
Qed.

Lemma flatten_preorder_object selector es :
  flatten_preorder selector (VObject es)
  = (rule selector (declarations es)
     ++ flat_map (fun e => flatten_preorder (parentSelector e) (cssObj e))
          (children selector es))%list.
Proof.
  simpl. f_equal.
  induction es as [|[k x] es IH]; simpl; [reflexivity|].
  rewrite IH. destruct (is_nested x); reflexivity.
Qed.

Lemma layered_object es :
  layered (VObject es)
  = match declarations es with
    | [] => true
    | _ :: _ => forallb (fun e => negb (is_nested (snd e))) es
    end
    && forallb (fun e => layered (snd e)) es.
Proof.
  simpl. f_equal.
  induction es as [|[k x] es IH]; simpl; [reflexivity | now rewrite IH].
Qed.

Lemma layered_orders_agree v : forall selector,
  layered v = true ->
  flatten_postorder selector v = flatten_preorder selector v.
Proof.
  induction v as [ | | b | n | s | l | es IH] using Value_entries_ind;
    intros selector Hl; try reflexivity.
  rewrite layered_object in Hl. apply andb_true_iff in Hl as [Hshape Hall].
  rewrite flatten_postorder_object, flatten_preorder_object.
  assert (Hkids :
    flat_map post_element (children selector es)
    = flat_map (fun e => flatten_preorder (parentSelector e) (cssObj e))
        (children selector es)).
  { clear Hshape. induction es as [|[k x] es IHes]; [reflexivity|].
    inversion_clear IH as [|? ? Hx Hes]. cbn [forallb snd] in Hall.
    apply andb_true_iff in Hall as [Hlx Hles]. cbn [children].
    destruct (is_nested x); [|now apply IHes].
    cbn [flat_map]. rewrite (IHes Hes Hles). f_equal.
    unfold post_element. cbn [parentSelector cssObj]. now apply Hx. }
  rewrite Hkids. destruct (declarations es) as [|d ds] eqn:Hd.
  - cbn [rule app]. now rewrite app_nil_r.
  - rewrite (leaves_children selector es Hshape). cbn [flat_map app].
    now rewrite app_nil_r.
Qed.

(** When no node of a valid StyleNode has both direct declarations and
    nested nodes, the output of [toCss] is also the pre-order flattening:
    the two orders differ only around a node that has both. *)
Theorem toCss_preorder_when_layered (obj : Value Number) :
  is_CssObject obj = true -> layered obj = true ->
  toCss obj = Return (join "" (flatten_preorder "" obj)).
Proof.
  intros Hobj Hl. destruct (is_CssObject_object obj Hobj) as [es ->].
  rewrite (toCss_throw_free es (is_CssObject_throw_free _ Hobj)).
  now rewrite (layered_orders_agree _ "" Hl).
Qed.

(** A chain of nested keys around a node of leaf entries, each with a value
    whose conversion to a string returns, gives one rule block, whose
    selector is the chain of the hyphenated keys, each with a dot in front,
    joined by single spaces. *)
Theorem toCss_nested_chain ks e es :
  forallb (fun e => negb (is_nested (snd e)) && converts (snd e)) (e :: es)
  = true ->
  toCss (nest ks (VObject (e :: es)))
  = Return (selector_chain ks ++ "{"
            ++ join ""
                 (map (fun e => caseConverter (fst e) ++ ":"
                                ++ text_of (ToString (snd e)) ++ ";") (e :: es))
            ++ "}").
Proof. apply toCss_chain. Qed.

End ToCssMore.


Lemma toCss_throws_on_leaf_witness :
  ToString (Number := Z) (VArray [VObject [("toString", VNumber 1%Z)]])
  = Throw NativeTypeError
  /\ toCss Samples.hostile_leaf = Throw NativeTypeError.
Proof.
  split.
  - exact (proj1 (toCss_throws_on_leaf (Number := Z))
             [VObject [("toString", VNumber 1%Z)]] [("toString", VNumber 1%Z)]
             (or_introl eq_refl) eq_refl).
  - exact (proj2 (toCss_throws_on_leaf (Number := Z))
             [("a", VArray [VObject [("toString", VNumber 1%Z)]])]
             "a" (VArray [VObject [("toString", VNumber 1%Z)]])
             (or_introl eq_refl) eq_refl eq_refl).
Defined.

Lemma toCss_preorder_when_layered_witness :
  toCss (Number := Z) Samples.two_siblings
  = Return ".a{color:red;}.b{color:blue;}"
  /\ join "" (flatten_preorder (Number := Z) "" Samples.two_siblings)
     = ".a{color:red;}.b{color:blue;}".
Proof.
  split; [|reflexivity].
  exact (toCss_preorder_when_layered (Number := Z) Samples.two_siblings
           eq_refl eq_refl).
Defined.

Lemma toCss_nested_chain_witness :
  toCss (Number := Z)
    (VObject [("navBar",
               VObject [("menuItem",
                         VObject [("Hover",
                                   VObject [("fontSize", VNumber 12%Z);
                                            ("color", VString "red")])])])])
  = Return ".nav-bar .menu-item .-hover{font-size:12;color:red;}".
Proof.
  exact (toCss_nested_chain (Number := Z) ["navBar"; "menuItem"; "Hover"]
           ("fontSize", VNumber 12%Z) [("color", VString "red")] eq_refl).
Defined.

(* ------------------------------------------------------------------ *)
(** * Arguments and effects of [injectStyle] *)

Section InjectStyleMore.
Context {Number : Type} `{JsNumber Number}.
Context {Dom Element : Type} `{DomOps Dom Element}.

Implicit Types (v : Value Number) (w : World Dom).

Lemma create_style_empty_id v (host : Element) w :
  create_style v (Some "") host w = create_style v None host w.
Proof. reflexivity. Qed.

Lemma create_style_console v id (host : Element) w :
  console (snd (create_style v id host w)) = console w.
Proof.
  unfold create_style. destruct (document_createElement _ _) as [style d1].
  destruct (style_text v); reflexivity.
Qed.

(** The empty string as id is the same as no id: no element is looked up,
    and the new <style> element gets no id. *)
Theorem injectStyle_empty_id v (overridable : option bool)
    (hostElement : option Element) w :
  injectStyle v (Some "") overridable hostElement w
  = injectStyle v None overridable hostElement w.
Proof.
  unfold injectStyle.
  destruct (negb (truthy v) || Array_isArray v); [reflexivity|].
  destruct (String.eqb (typeof v) "string" && _); [reflexivity|].
  cbn [String.eqb negb]. apply create_style_empty_id.
Qed.

(** Unless [overridable] is false, no call writes to the console: the
    warning of line 103 is the only output, on every path. *)
Theorem injectStyle_console_untouched v (id : option string)
    (overridable : option bool) (hostElement : option Element) w :
  overridable <> Some false ->
  console (snd (injectStyle v id overridable hostElement w)) = console w.
Proof.
  intros Hover. unfold injectStyle.
  destruct (negb (truthy v) || Array_isArray v); [reflexivity|].
  destruct (String.eqb (typeof v) "string" && _); [reflexivity|].
  destruct id as [i|]; [|apply create_style_console].
  destruct (negb (String.eqb i "")); [|apply create_style_console].
  destruct (document_getElementById i (document w)) as [oldStyle|];
    [|apply create_style_console].
  unfold replace_style. destruct (negb _); [reflexivity|].
  destruct overridable as [[|]|]; [| now elim Hover |];
    destruct (String.eqb _ "style"); cbn [negb andb];
    destruct (style_text v); reflexivity.
Qed.

(** The arguments a path does not read.  When an element is found under the
    id, [hostElement] plays no part: the element is updated where it is.
    When no element is looked up or found, [overridable] plays no part. *)
Theorem injectStyle_unused_arguments v (id : option string)
    (overridable overridable' : option bool)
    (hostElement hostElement' : option Element) w :
  (forall i oldStyle,
     id = Some i -> i <> "" ->
     document_getElementById i (document w) = Some oldStyle ->
     injectStyle v id overridable hostElement w
     = injectStyle v id overridable hostElement' w)
  /\ (match id with
      | Some i => i = "" \/ document_getElementById i (document w) = None
      | None => True
      end ->
      injectStyle v id overridable hostElement w
      = injectStyle v id overridable' hostElement w).
Proof.
  split.
  - intros i oldStyle -> Hi Hfound. apply String.eqb_neq in Hi.
    unfold injectStyle. now rewrite Hi, Hfound.
  - intros Hid. unfold injectStyle. destruct id as [i|]; [|reflexivity].
    destruct Hid as [-> | Hnone]; [reflexivity|].
    now rewrite Hnone.
Qed.

(** When the content is an object on which [toCss] throws and the id names
    a <style> element that may be overridden, the call throws the same
    error and neither the element nor the console is changed. *)
Theorem injectStyle_replace_throw v (id : string) (overridable : option bool)
    (hostElement : option Element) (oldStyle : Element) (e : JsError) w :
  truthy v = true -> Array_isArray v = false ->
  id <> "" -> overridable <> Some false ->
  document_getElementById id (document w) = Some oldStyle ->
  toLowerCase (get_tagName oldStyle (document w)) = "style" ->
  style_text v = Throw e ->
  injectStyle v (Some id) overridable hostElement w = (Throw e, w).
Proof.
  intros Hv Harr Hid Hover Hfound Htag Hthrow. apply String.eqb_neq in Hid.
  unfold injectStyle.
  rewrite Hv, Harr, (truthy_not_empty_string v Hv), Hid, Hfound.
  cbn [negb orb]. unfold replace_style. rewrite Htag, Hthrow.
  cbn [String.eqb negb].
  destruct overridable as [[|]|]; try reflexivity. now elim Hover.
Qed.

(** When no element is looked up or found under the id, a valid content
    leads to: a new <style> element, its [type] set to ["text/css"], its text
    set to the style text, its id set when a non-empty id was given, and the
    element appended to [hostElement], or to [document.head] by default. *)
Theorem injectStyle_creates v (id : option string) (overridable : option bool)
    (hostElement : option Element) (css : string) w :
  truthy v = true -> Array_isArray v = false ->
  match id with
  | Some i => i = "" \/ document_getElementById i (document w) = None
  | None => True
  end ->
  style_text v = Return css ->
  injectStyle v id overridable hostElement w
  = let style := fst (document_createElement "style" (document w)) in
    let created := snd (document_createElement "style" (document w)) in
    let filled := set_textContent style css (set_type style "text/css" created) in
    let named :=
      match id with
      | Some (String c i) => set_id style (String c i) filled
      | _ => filled
      end in
    let host :=
      match hostElement with
      | Some h => h
      | None => document_head (document w)
      end in
    (Return tt,
     {| document := appendChild host style named; console := console w |}).
Proof.
  intros Hv Harr Hid Hcss. unfold injectStyle.
  rewrite Hv, Harr, (truthy_not_empty_string v Hv). cbn [negb orb].
  assert (Hcreate : forall host,
    create_style v id host w
    = (Return tt,
       {| document :=
            appendChild host (fst (document_createElement "style" (document w)))
              match id with
              | Some (String c i) =>
                  set_id (fst (document_createElement "style" (document w)))
                    (String c i)
                    (set_textContent
                       (fst (document_createElement "style" (document w))) css
                       (set_type
                          (fst (document_createElement "style" (document w)))
                          "text/css"
                          (snd (document_createElement "style" (document w)))))
              | _ =>
                  set_textContent
                    (fst (document_createElement "style" (document w))) css
                    (set_type
                       (fst (document_createElement "style" (document w)))
                       "text/css"
                       (snd (document_createElement "style" (document w))))
              end;
          console := console w |})).
  { intros host. unfold create_style.
    destruct (document_createElement "style" (document w)) as [style d1].
    rewrite Hcss. cbn [fst snd]. destruct id as [[|c i]|]; reflexivity. }
  cbv zeta. destruct id as [i|]; [|apply Hcreate].
  destruct Hid as [-> | Hnone]; [apply Hcreate|].
  rewrite Hnone. destruct (negb (String.eqb i "")); apply Hcreate.
Qed.

End InjectStyleMore.

Lemma fresh_id_not_found :
  "fresh" = "" \/ ListDom.getElementById "fresh" ListDom.sample = None.
Proof. right. reflexivity. Defined.

Lemma injectStyle_console_untouched_witness :
  console
    (snd (injectStyle Samples.parent_and_child (Some "theme") None None
            {| document := ListDom.sample; console := ["earlier"] |}))
  = ["earlier"].
Proof.
  exact (injectStyle_console_untouched Samples.parent_and_child (Some "theme")
           None None {| document := ListDom.sample; console := ["earlier"] |}
           overridable_default_not_false).
Defined.

Lemma injectStyle_unused_arguments_witness :
  injectStyle Samples.parent_and_child (Some "theme") None None
    {| document := ListDom.sample; console := [] |}
  = injectStyle Samples.parent_and_child (Some "theme") None (Some 2)
      {| document := ListDom.sample; console := [] |}
  /\ injectStyle Samples.parent_and_child (Some "fresh") (Some true) None
       {| document := ListDom.sample; console := [] |}
     = injectStyle Samples.parent_and_child (Some "fresh") (Some false) None
         {| document := ListDom.sample; console := [] |}.
Proof.
  split.
  - exact (proj1 (injectStyle_unused_arguments Samples.parent_and_child
                    (Some "theme") None None None (Some 2)
                    {| document := ListDom.sample; console := [] |})
             "theme" 1 eq_refl theme_id_not_empty eq_refl).
  - exact (proj2 (injectStyle_unused_arguments Samples.parent_and_child
                    (Some "fresh") (Some true) (Some false) None None
                    {| document := ListDom.sample; console := [] |})
             fresh_id_not_found).
Defined.

Lemma injectStyle_replace_throw_witness :
  injectStyle Samples.null_entry (Some "theme") None None
    {| document := ListDom.sample; console := [] |}
  = (Throw NativeTypeError, {| document := ListDom.sample; console := [] |}).
Proof.
  exact (injectStyle_replace_throw Samples.null_entry "theme" None None 1
           NativeTypeError {| document := ListDom.sample; console := [] |}
           eq_refl eq_refl theme_id_not_empty overridable_default_not_false
           eq_refl eq_refl eq_refl).
Defined.

Lemma injectStyle_creates_witness :
  injectStyle Samples.parent_and_child (Some "fresh") None (Some 2)
    {| document := ListDom.sample; console := [] |}
  = (Return tt,
     {| document :=
          (ListDom.sample
           ++ [{| ListDom.node_tag := "STYLE"; ListDom.node_id := "fresh";
                  ListDom.node_type := "text/css";
                  ListDom.node_text := ".a{color:blue;}{color:red;}";
                  ListDom.node_parent := Some 2 |}])%list;
        console := [] |}).
Proof.
  exact (injectStyle_creates Samples.parent_and_child (Some "fresh") None
           (Some 2) ".a{color:blue;}{color:red;}"
           {| document := ListDom.sample; console := [] |}
           eq_refl eq_refl fresh_id_not_found eq_refl).
Defined.

